(** * MusicJooBot: the identification pipeline, embedded and verified

    A shallow embedding of [utils.py], [audio_processing.py], [providers.py]
    and [search_engine.py].  Python values are modelled as follows.

    - A [str] is the list of its Unicode code points ([N]); [len] is
      [length], slicing is [take], concatenation is [++].
    - JSON objects read from the upstream services are records whose fields
      are the keys the code reads; a key read with [.get] is optional.
    - Every external effect (HTTP, subprocess, file system, environment) is
      answered by an oracle of the [world]; the code runs in a state and
      exception monad over the file system and a log of external calls. *)

From Stdlib Require Import String Ascii QArith.
From stdpp Require Import base list gmap sets.
From Stdlib Require Import NArith ZArith Lia Sorting.Sorted.

Local Open Scope N_scope.
Local Open Scope nat_scope.

(** ** Python strings *)

Module PyStr.

Definition str := list N.

(** A literal of the source, as code points. *)
Definition lit (s : string) : str :=
  map N_of_ascii (list_ascii_of_string s).

(** Truthiness of a [str]: non-empty. *)
Definition truthy (s : str) : bool :=
  match s with [] => false | _ :: _ => true end.

(** Truthiness of an optional [str] ([None] and the empty string are falsy). *)
Definition truthy_opt (o : option str) : bool :=
  match o with Some s => truthy s | None => false end.

(** [x or y] on optional strings. *)
Definition or_opt (x y : option str) : option str :=
  if truthy_opt x then x else y.

(** [x or d] where [d] is a string: always a string. *)
Definition or_str (x : option str) (d : str) : str :=
  match x with
  | Some s => if truthy s then s else d
  | None => d
  end.

Definition in_range (lo hi c : N) : bool := (lo <=? c)%N && (c <=? hi)%N.

(** [str.isspace] on one code point (CPython's [_PyUnicode_IsWhitespace]). *)
Definition is_space (c : N) : bool :=
  in_range 0x09 0x0D c || in_range 0x1C 0x1F c || (c =? 0x20)%N
  || (c =? 0x85)%N || (c =? 0xA0)%N || (c =? 0x1680)%N
  || in_range 0x2000 0x200A c || (c =? 0x2028)%N || (c =? 0x2029)%N
  || (c =? 0x202F)%N || (c =? 0x205F)%N || (c =? 0x3000)%N.

(** Line boundaries of [str.splitlines] (CPython's [_PyUnicode_IsLinebreak]). *)
Definition is_linebreak (c : N) : bool :=
  in_range 0x0A 0x0D c || in_range 0x1C 0x1E c || (c =? 0x85)%N
  || (c =? 0x2028)%N || (c =? 0x2029)%N.

Fixpoint lstrip (s : str) : str :=
  match s with
  | [] => []
  | c :: rest => if is_space c then lstrip rest else s
  end.

Definition rstrip (s : str) : str := rev (lstrip (rev s)).

(** [s.strip()] *)
Definition strip (s : str) : str := rstrip (lstrip s).

(** [s.splitlines()]: a carriage return followed by a line feed is one
    boundary; a final boundary does not open an empty last line. *)
Fixpoint splitlines (s : str) : list str :=
  match s with
  | [] => []
  | c :: rest =>
      if is_linebreak c then
        [] :: match rest with
              | c' :: rest' =>
                  if (c =? 0x0D)%N && (c' =? 0x0A)%N
                  then splitlines rest' else splitlines rest
              | [] => []
              end
      else
        match splitlines rest with
        | [] => [[c]]
        | l :: ls => (c :: l) :: ls
        end
  end.

(** [sep.join(parts)] *)
Fixpoint join (sep : str) (parts : list str) : str :=
  match parts with
  | [] => []
  | [p] => p
  | p :: ps => p ++ sep ++ join sep ps
  end.

(** [s.split(sep)[0]] for a one-character separator: the text before the
    first occurrence of [sep]. *)
Fixpoint split_first (sep : N) (s : str) : str :=
  match s with
  | [] => []
  | c :: rest => if (c =? sep)%N then [] else c :: split_first sep rest
  end.

(** [sum(len(x) for x in out)] *)
Definition total_len (out : list str) : nat :=
  foldr (fun x acc => length x + acc) 0 out.

Fixpoint starts_with (p s : str) : bool :=
  match p, s with
  | [], _ => true
  | a :: p', b :: s' => (a =? b)%N && starts_with p' s'
  | _ :: _, [] => false
  end.

Definition ends_with (p s : str) : bool := starts_with (rev p) (rev s).

End PyStr.
Import PyStr.

(** ** Exceptions, results and the effect monad *)

(** The exceptions the modelled code can raise.  [LibraryError] stands for
    any exception raised inside an external library or service client
    (connection errors, timeouts, download errors, a missing executable). *)
Inductive exc :=
| HTTPError (status : Z)
| JSONDecodeError
| KeyError (key : str)
| IndexError
| RuntimeError (msg : str)
| ValueError (msg : str)
| AttributeError (msg : str)
| CalledProcessError (cmd : list str)
| LibraryError (kind msg : str).

Inductive result (A : Type) :=
| Ret (a : A)
| Raise (e : exc).
Arguments Ret {A} a.
Arguments Raise {A} e.

(** One entry per call that leaves the process. *)
Inductive event :=
| EvFfmpeg (args : list str)
| EvDownload (url : str)
| EvFingerprint (path : str)
| EvAcoustid (fp : str) (duration : Z) (key : str)
| EvMbSearch (query user_agent : str) (limit : Z)
| EvMbLookup (mbid : option str) (user_agent : str)
| EvCoverArt (url : str)
| EvSpotifyToken (client_id client_secret : str)
| EvSpotifySearch (q token : str) (limit : Z)
| EvLyrics (url : str).

(** The state a call runs in: the paths that exist on disk and the external
    calls made so far (oldest first). *)
Record state := mkState {
  fs : gset str;
  log : list event
}.

Definition M (A : Type) : Type := state -> result A * state.

Definition ret {A} (a : A) : M A := fun s => (Ret a, s).
Definition raise {A} (e : exc) : M A := fun s => (Raise e, s).
Definition bind {A B} (m : M A) (k : A -> M B) : M B :=
  fun s => match m s with
           | (Ret a, s') => k a s'
           | (Raise e, s') => (Raise e, s')
           end.

Notation "x <- m ;; k" := (bind m (fun x => k))
  (at level 100, m at next level, right associativity).

(** [try: body / except Exception: handler] *)
Definition try_except {A} (body : M A) (handler : exc -> M A) : M A :=
  fun s => match body s with
           | (Ret a, s') => (Ret a, s')
           | (Raise e, s') => handler e s'
           end.

Definition emit (ev : event) : M unit :=
  fun s => (Ret tt, mkState (fs s) (log s ++ [ev])).

Definition fs_create (p : str) : M unit :=
  fun s => (Ret tt, mkState ({[ p ]} ∪ fs s) (log s)).

(** ** Upstream data *)

(** An HTTP exchange through [requests]: the call raises, or a response
    arrives with a status code and a body; the body is [None] when it is
    not JSON of the expected shape, so that [r.json()] raises. *)
Inductive http (A : Type) :=
| NetErr (e : exc)
| Resp (status : Z) (body : option A).
Arguments NetErr {A} e.
Arguments Resp {A} status body.

Record artist_credit := { ac_name : option str }.
Record release := { rel_id : option str }.

(** A MusicBrainz recording, from a search or from a lookup.  The service
    lists objects that carry further keys (a score, a length, ...), so as a
    Python value a listed recording is never the empty dictionary and is
    always truthy, whatever the four fields read here hold. *)
Record recording := {
  rec_id : option str;
  rec_title : option str;
  rec_artist_credit : list artist_credit;
  rec_releases : list release
}.

Record acoustid_recording := { ar_id : option str }.

(** One AcoustID result; the score is a JSON number. *)
Record acoustid_match := {
  am_score : option Q;
  am_recordings : list acoustid_recording
}.

Record acoustid_body := {
  ab_status : option str;
  ab_results : list acoustid_match
}.

Record spotify_image := { img_url : option str }.

Record spotify_item := {
  si_external_url : option str;
  si_preview_url : option str;
  si_album_images : list spotify_image;
  si_artists : list artist_credit;
  si_name : option str
}.

(** ** The outside world *)

(** What [subprocess.run(cmd, check=True)] can do with the decoder: run it
    to success, run it to a non-zero exit (with or without an output file
    left behind), or fail to start it (a missing or unusable executable, an
    argument the operating system refuses), raising that error. *)
Inductive ffmpeg_outcome :=
| FfOk
| FfFail (left_output : bool)
| FfNotRun (e : exc).

Record world := {
  (** [os.getenv] *)
  w_getenv : str -> option str;
  (** the decoder, by its argument list *)
  w_ffmpeg : list str -> ffmpeg_outcome;
  (** the directory [tempfile.TemporaryDirectory()] creates *)
  w_mkdtemp : str;
  (** the file [tempfile.mkstemp(suffix=...)] creates *)
  w_mkstemp : str -> str;
  (** the downloader, by url and output template: what [os.listdir] of the
      download directory reports afterwards, and the exception if it raised *)
  w_ytdlp : str -> str -> list str * option exc;
  (** [acoustid.fingerprint_file]: the pair (duration, fingerprint) the
      library returns, in the library's order; the duration, a float, as the
      text it is sent as, the fingerprint as the bytes the library returns *)
  w_fingerprint_file : str -> result (str * str);
  w_acoustid : str -> Z -> str -> http acoustid_body;
  w_mb_search : str -> str -> Z -> http (list recording);
  w_mb_lookup : option str -> str -> http recording;
  w_cover_art : str -> http unit;
  w_spotify_token : str -> str -> http (option str);
  w_spotify_search : str -> str -> Z -> http (list spotify_item);
  w_lyrics : str -> http (option str)
}.

(** [requests.get]/[requests.post]: log the call, raise what the transport
    raises, otherwise hand back status and body. *)
Definition request {A} (ev : event) (r : http A) : M (Z * option A) :=
  _ <- emit ev ;;
  match r with
  | NetErr e => raise e
  | Resp status body => ret (status, body)
  end.

(** [r.raise_for_status()]: an error for client and server error codes. *)
Definition raise_for_status (status : Z) : M unit :=
  if ((400 <=? status) && (status <? 600))%Z then raise (HTTPError status)
  else ret tt.

(** [r.json()] *)
Definition json {A} (body : option A) : M A :=
  match body with
  | Some v => ret v
  | None => raise JSONDecodeError
  end.

(** ** utils.py *)

(** [get_env(name, default)] *)
Definition get_env (w : world) (name default : str) : str :=
  match w_getenv w name with
  | Some v => v
  | None => default
  end.

(** What [human_exc] observes of an exception: the name of its class, the
    attribute [name] of its class when the class has one (as an f-string
    renders it), and its [str()]. *)
Record exception := {
  type_name : str;
  type_name_attr : option str;
  exc_str : str
}.

(** [f"{type(e).name}: {str(e)[:300]}"]: the attribute [name] is looked up
    on the class of [e]; a class without it makes the lookup raise. *)
Definition human_exc (e : exception) : result str :=
  match type_name_attr e with
  | Some name => Ret (name ++ lit ": " ++ take 300 (exc_str e))
  | None =>
      Raise (AttributeError (lit "type object '" ++ type_name e
                             ++ lit "' has no attribute 'name'"))
  end.

(** ** Python's [int] on bytes *)

(** Whitespace of a bytes object. *)
Definition is_ascii_space (c : N) : bool := in_range 0x09 0x0D c || (c =? 0x20)%N.

Fixpoint lstrip_ascii (s : str) : str :=
  match s with
  | [] => []
  | c :: rest => if is_ascii_space c then lstrip_ascii rest else s
  end.

Definition strip_ascii (s : str) : str := rev (lstrip_ascii (rev (lstrip_ascii s))).

Definition digit_val (c : N) : option Z :=
  if in_range 0x30 0x39 c then Some (Z.of_N c - 48)%Z else None.

(** Decimal digits, single underscores allowed between two digits;
    [after_digit] tells whether the previous character was a digit. *)
Fixpoint parse_digits (acc : Z) (after_digit : bool) (s : str) : option Z :=
  match s with
  | [] => if after_digit then Some acc else None
  | c :: rest =>
      match digit_val c with
      | Some d => parse_digits (10 * acc + d)%Z true rest
      | None =>
          if (c =? 0x5F)%N && after_digit then parse_digits acc false rest
          else None
      end
  end.

(** [int(b)] for a bytes object [b]: surrounding whitespace, an optional
    sign, decimal digits; [None] stands for [ValueError].  The interpreter's
    limit on the number of digits (4300 by default, from Python 3.11 on) is
    left out. *)
Definition py_int (b : str) : option Z :=
  match strip_ascii b with
  | c :: rest =>
      if (c =? 0x2B)%N then parse_digits 0 false rest
      else if (c =? 0x2D)%N then option_map Z.opp (parse_digits 0 false rest)
      else parse_digits 0 false (c :: rest)
  | [] => None
  end.

(** ** audio_processing.py *)

(** Case-insensitive match of one pattern letter; under [re.IGNORECASE] the
    letter s also matches the long s (U+017F). *)
Definition ci_match (lower upper c : N) : bool := (c =? lower)%N || (c =? upper)%N.

Definition match_scheme_tail (s : str) : bool := starts_with (lit "://") s.

(** [re.match(r'https?://', text.strip(), re.IGNORECASE)] *)
Definition is_url (text : str) : bool :=
  match strip text with
  | h :: t1 :: t2 :: p :: rest =>
      ci_match 0x68 0x48 h && ci_match 0x74 0x54 t1 && ci_match 0x74 0x54 t2
      && ci_match 0x70 0x50 p
      && (match rest with
          | c :: rest' =>
              ((ci_match 0x73 0x53 c || (c =? 0x17F)%N) && match_scheme_tail rest')
              || match_scheme_tail rest
          | [] => false
          end)
  | _ => false
  end.

(** [os.path.join(a, b)] *)
Definition path_join (a b : str) : str :=
  if starts_with (lit "/") b then b
  else if negb (truthy a) || ends_with (lit "/") a then a ++ b
  else a ++ lit "/" ++ b.

(** A path is inside directory [d] when it is [d] or lies below it. *)
Definition inside (d p : str) : bool :=
  bool_decide (p = d) || starts_with (path_join d []) p.

(** The output file of a decoder command line is its last argument. *)
Definition ffmpeg_output (args : list str) : str := List.last args [].

(** [_run_ffmpeg_cmd(args)]: [subprocess.run(cmd, check=True, ...)] *)
Definition _run_ffmpeg_cmd (w : world) (args : list str) : M unit :=
  _ <- emit (EvFfmpeg args) ;;
  match w_ffmpeg w args with
  | FfOk => fs_create (ffmpeg_output args)
  | FfFail left_output =>
      _ <- (if left_output then fs_create (ffmpeg_output args) else ret tt) ;;
      raise (CalledProcessError args)
  | FfNotRun e => raise e
  end.

(** [str(sr)] for the default sample rate, which every caller uses. *)
Definition sr_default : str := lit "44100".

(** [extract_audio_from_file(in_path, out_wav=None)] *)
Definition extract_audio_from_file (w : world) (in_path : str) (out_wav : option str)
  : M str :=
  let out_wav := match out_wav with
                 | None => in_path ++ lit ".wav"
                 | Some p => p
                 end in
  _ <- _run_ffmpeg_cmd w
         [lit "-y"; lit "-i"; in_path; lit "-ac"; lit "1"; lit "-ar"; sr_default; out_wav] ;;
  ret out_wav.

(** [with tempfile.TemporaryDirectory() as tmpdir: body]: the directory is
    created, the body runs, and the directory with all it contains is
    removed however the body ends. *)
Definition with_TemporaryDirectory {A} (w : world) (body : str -> M A) : M A :=
  fun s =>
    let tmpdir := w_mkdtemp w in
    let '(r, s') := body tmpdir (mkState ({[ tmpdir ]} ∪ fs s) (log s)) in
    (r, mkState (filter (fun p => ¬ inside tmpdir p) (fs s')) (log s')).

(** [ydl.download([url])] followed by [os.listdir(tmpdir)]: the files the
    downloader wrote are on disk; the listing is returned unless the
    download raised. *)
Definition ytdlp_download (w : world) (url outtmpl tmpdir : str) : M (list str) :=
  _ <- emit (EvDownload url) ;;
  let '(listing, err) := w_ytdlp w url outtmpl in
  fun s =>
    let s' := mkState (list_to_set (map (path_join tmpdir) listing) ∪ fs s) (log s) in
    match err with
    | Some e => (Raise e, s')
    | None => (Ret listing, s')
    end.

(** [tempfile.mkstemp(suffix=...)] then [os.close(fd)] *)
Definition mkstemp (w : world) (suffix : str) : M str :=
  let final_path := w_mkstemp w suffix in
  _ <- fs_create final_path ;;
  ret final_path.

(** [extract_audio_from_url(url, out_wav=None)] *)
Definition extract_audio_from_url (w : world) (url : str) (out_wav : option str)
  : M str :=
  with_TemporaryDirectory w (fun tmpdir =>
    listing <- ytdlp_download w url (path_join tmpdir (lit "dl.%(ext)s")) tmpdir ;;
    let files := List.filter (starts_with (lit "dl.")) listing in
    match files with
    | [] => raise (RuntimeError (lit "Download failed or returned no files."))
    | f0 :: _ =>
        let in_path := path_join tmpdir f0 in
        let out_wav := match out_wav with
                       | None => path_join tmpdir (lit "audio.wav")
                       | Some p => p
                       end in
        _ <- _run_ffmpeg_cmd w
               [lit "-y"; lit "-i"; in_path; lit "-ac"; lit "1"; lit "-ar"; sr_default; out_wav] ;;
        final_path <- mkstemp w (lit ".wav") ;;
        _ <- _run_ffmpeg_cmd w [lit "-y"; lit "-i"; out_wav; final_path] ;;
        ret final_path
    end).

(** ** providers.py *)

(** [mb_search_recordings(query, user_agent, limit)] *)
Definition mb_search_recordings (w : world) (query user_agent : str) (limit : Z)
  : M (list recording) :=
  r <- request (EvMbSearch query user_agent limit) (w_mb_search w query user_agent limit) ;;
  _ <- raise_for_status (fst r) ;;
  data <- json (snd r) ;;
  ret data.

(** [mb_lookup_recording(mbid, user_agent)] *)
Definition mb_lookup_recording (w : world) (mbid : option str) (user_agent : str)
  : M recording :=
  r <- request (EvMbLookup mbid user_agent) (w_mb_lookup w mbid user_agent) ;;
  _ <- raise_for_status (fst r) ;;
  json (snd r).

(** [cover_art_from_release(release_mbid)] *)
Definition cover_art_from_release (w : world) (release_mbid : str) : M (option str) :=
  let url := lit "https://coverartarchive.org/release/" ++ release_mbid ++ lit "/front" in
  try_except
    (r <- request (EvCoverArt url) (w_cover_art w url) ;;
     if (fst r =? 200)%Z then ret (Some url) else ret None)
    (fun _ => ret None).

(** [acoustid_lookup(fp, duration, api_key)] *)
Definition acoustid_lookup (w : world) (fp : str) (duration : Z) (api_key : str)
  : M (list acoustid_match) :=
  r <- request (EvAcoustid fp duration api_key) (w_acoustid w fp duration api_key) ;;
  _ <- raise_for_status (fst r) ;;
  js <- json (snd r) ;;
  if bool_decide (ab_status js = Some (lit "ok")) then ret (ab_results js)
  else ret [].

(** [spotify_client_credentials_token(client_id, client_secret)] *)
Definition spotify_client_credentials_token (w : world) (client_id client_secret : str)
  : M (option str) :=
  if negb (truthy client_id) || negb (truthy client_secret) then ret None
  else
    r <- request (EvSpotifyToken client_id client_secret)
                 (w_spotify_token w client_id client_secret) ;;
    if negb (fst r =? 200)%Z then ret None
    else json (snd r).

(** [spotify_search_track(q, token, limit)] *)
Definition spotify_search_track (w : world) (q token : str) (limit : Z)
  : M (list spotify_item) :=
  r <- request (EvSpotifySearch q token limit) (w_spotify_search w q token limit) ;;
  _ <- raise_for_status (fst r) ;;
  json (snd r).

(** [", ".join(a.get("name", "") for a in credits if a.get("name"))] *)
Definition artist_names (credits : list artist_credit) : str :=
  join (lit ", ")
       (omap (fun a => if truthy_opt (ac_name a) then ac_name a else None) credits).

(** The dictionary [spotify_track_link_and_preview] returns. *)
Record spotify_info := {
  sp_link : option str;
  sp_preview : option str;
  sp_cover : option str;
  sp_artists : str;
  sp_title : option str
}.

(** [spotify_track_link_and_preview(item)] *)
Definition spotify_track_link_and_preview (item : spotify_item) : spotify_info :=
  {| sp_link := si_external_url item;
     sp_preview := si_preview_url item;
     sp_cover := match si_album_images item with
                 | img :: _ => img_url img
                 | [] => None
                 end;
     sp_artists := artist_names (si_artists item);
     sp_title := si_name item |}.

(** The loop of [lyrics_best_effort] over the remaining lines, with the
    lines collected so far. *)
Fixpoint excerpt_loop (lines out : list str) : list str :=
  match lines with
  | [] => out
  | line :: rest =>
      let out := if truthy (strip line) then out ++ [strip line] else out in
      if 500 <? total_len out then out
      else excerpt_loop rest out
  end.

(** The stripped, non-blank lines among [lines], in order. *)
Definition kept (lines : list str) : list str :=
  List.filter truthy (map strip lines).

(** The lines [lyrics_best_effort] keeps of a lyrics text. *)
Definition excerpt_lines (txt : str) : list str :=
  excerpt_loop (splitlines (strip txt)) [].

(** The excerpt [lyrics_best_effort] builds from a lyrics text. *)
Definition excerpt_of (txt : str) : str :=
  join [10%N] (excerpt_lines txt).

(** [lyrics_best_effort(artist, title)] *)
Definition lyrics_best_effort (w : world) (artist title : str) : M (option str) :=
  if negb (truthy artist) || negb (truthy title) then ret None
  else
    try_except
      (let url := lit "https://api.lyrics.ovh/v1/" ++ artist ++ lit "/" ++ title in
       r <- request (EvLyrics url) (w_lyrics w url) ;;
       if negb (fst r =? 200)%Z then ret None
       else
         body <- json (snd r) ;;
         match body with
         | Some txt =>
             if negb (truthy txt) then ret None
             else ret (Some (excerpt_of txt))
         | None => ret None
         end)
      (fun _ => ret None).

(** ** search_engine.py *)

(** The dictionary both entry points return. *)
Record track_result := {
  title : option str;
  artists : str;
  cover_url : option str;
  mbid : option str;
  spotify_link : option str;
  spotify_preview : option str;
  lyrics_excerpt : option str
}.

(** [_chromaprint_fingerprint(wav_path)]: the library's pair is unpacked as
    [fp, duration], so [fp] is bound to the library's duration and
    [duration] to the library's fingerprint, on which [int] is called. *)
Definition _chromaprint_fingerprint (w : world) (wav_path : str) : M (option (str * Z)) :=
  try_except
    (_ <- emit (EvFingerprint wav_path) ;;
     match w_fingerprint_file w wav_path with
     | Ret (fp, duration) =>
         match py_int duration with
         | Some n => ret (Some (fp, n))
         | None => raise (ValueError (lit "invalid literal for int() with base 10"))
         end
     | Raise e => raise e
     end)
    (fun _ => ret None).

(** [_spotify_token()] *)
Definition _spotify_token (w : world) : M (option str) :=
  let cid := get_env w (lit "SPOTIFY_CLIENT_ID") [] in
  let sec := get_env w (lit "SPOTIFY_CLIENT_SECRET") [] in
  if negb (truthy cid) || negb (truthy sec) then ret None
  else spotify_client_credentials_token w cid sec.

(** How an f-string renders a value that is a string or [None]. *)
Definition fmt (o : option str) : str :=
  match o with
  | Some s => s
  | None => lit "None"
  end.

(** [_enrich_spotify_and_cover(title, artists, cover_url)], returning
    [(link, preview, cover_url)]. *)
Definition _enrich_spotify_and_cover (w : world) (title : option str) (artists : str)
    (cover_url : option str) : M (option str * option str * option str) :=
  token <- _spotify_token w ;;
  match token with
  | Some tok =>
      if truthy tok then
        items <- spotify_search_track w (strip (fmt title ++ lit " " ++ artists)) tok 1 ;;
        match items with
        | item :: _ =>
            let sp := spotify_track_link_and_preview item in
            ret (sp_link sp, sp_preview sp, or_opt cover_url (sp_cover sp))
        | [] => ret (None, None, cover_url)
        end
      else ret (None, None, cover_url)
  | None => ret (None, None, cover_url)
  end.

(** [artists.split(",")[0].strip() if artists else ""] *)
Definition first_artist (artists : str) : str :=
  if truthy artists then strip (split_first 0x2C artists) else [].

(** [x.get("score", 0)] *)
Definition score_key (x : acoustid_match) : Q :=
  match am_score x with
  | Some q => q
  | None => 0%Q
  end.

Section Sorted.
Context {A : Type} (key : A -> Q).

(** Insertion in front of the first element whose key is not larger. *)
Fixpoint insert_desc (x : A) (l : list A) : list A :=
  match l with
  | [] => [x]
  | y :: l' =>
      if Qle_bool (key y) (key x) then x :: y :: l'
      else y :: insert_desc x l'
  end.

(** [sorted(l, key=key, reverse=True)]: descending in the key, elements
    with equal keys in their original order. *)
Fixpoint sorted_desc (l : list A) : list A :=
  match l with
  | [] => []
  | x :: l' => insert_desc x (sorted_desc l')
  end.
End Sorted.

(** The cover lookup both entry points share:
    [cover_art_from_release(releases[0]["id"]) if releases else None] *)
Definition cover_of_releases (w : world) (releases : list release) : M (option str) :=
  match releases with
  | rel :: _ =>
      match rel_id rel with
      | Some rid => cover_art_from_release w rid
      | None => raise (KeyError (lit "id"))
      end
  | [] => ret None
  end.

(** Step 1 of [identify_from_audio_input]: convert the input to a WAV file. *)
Definition to_wav (w : world) (input_path_or_url : str) : M str :=
  if is_url input_path_or_url
  then extract_audio_from_url w input_path_or_url None
  else extract_audio_from_file w input_path_or_url None.

(** Lines 69 to 90 of [identify_from_audio_input]: what is done with the
    matches the fingerprint service returned. *)
Definition identify_from_matches (w : world) (matches : list acoustid_match)
    (user_agent : str) : M (option track_result) :=
  match matches with
  | _ :: _ =>
      match sorted_desc score_key matches with
      | top :: _ =>
          match am_recordings top with
          | rec :: _ =>
              let mbid := ar_id rec in
              info <- mb_lookup_recording w mbid user_agent ;;
              let title := rec_title info in
              let artists := artist_names (rec_artist_credit info) in
              cover_url <- cover_of_releases w (rec_releases info) ;;
              sp <- _enrich_spotify_and_cover w title artists cover_url ;;
              let '(sp_link, sp_prev, cover_url) := sp in
              lyrics <- lyrics_best_effort w (first_artist artists) (or_str title []) ;;
              ret (Some {| title := title;
                           artists := artists;
                           cover_url := cover_url;
                           mbid := mbid;
                           spotify_link := sp_link;
                           spotify_preview := sp_prev;
                           lyrics_excerpt := lyrics |})
          | [] => ret None
          end
      | [] => raise IndexError
      end
  | [] => ret None
  end.

(** [identify_from_audio_input(input_path_or_url, user_agent)] *)
Definition identify_from_audio_input (w : world) (input_path_or_url user_agent : str)
  : M (option track_result) :=
  wav_path <- to_wav w input_path_or_url ;;
  let acoustid_key := get_env w (lit "ACOUSTID_API_KEY") [] in
  if truthy acoustid_key then
    fp_info <- _chromaprint_fingerprint w wav_path ;;
    match fp_info with
    | Some (fp, dur) =>
        matches <- acoustid_lookup w fp dur acoustid_key ;;
        identify_from_matches w matches user_agent
    | None => ret None
    end
  else ret None.

(** [identify_from_text(query, user_agent)] *)
Definition identify_from_text (w : world) (query user_agent : str)
  : M (option track_result) :=
  recordings <- mb_search_recordings w query user_agent 5 ;;
  match recordings with
  | [] =>
      token <- _spotify_token w ;;
      match token with
      | Some tok =>
          if truthy tok then
            items <- spotify_search_track w query tok 1 ;;
            match items with
            | item :: _ =>
                let sp := spotify_track_link_and_preview item in
                let artists := sp_artists sp in
                let title := or_str (sp_title sp) query in
                lyrics <- lyrics_best_effort w (first_artist artists) title ;;
                ret (Some {| title := Some title;
                             artists := artists;
                             cover_url := sp_cover sp;
                             mbid := None;
                             spotify_link := sp_link sp;
                             spotify_preview := sp_preview sp;
                             lyrics_excerpt := lyrics |})
            | [] => ret None
            end
          else ret None
      | None => ret None
      end
  | pick :: _ =>
      let mbid := rec_id pick in
      let title := rec_title pick in
      let artists :=
        let names := artist_names (rec_artist_credit pick) in
        if truthy names then names else lit "Unknown" in
      cover_url <- cover_of_releases w (rec_releases pick) ;;
      sp <- _enrich_spotify_and_cover w (Some (or_str title [])) artists cover_url ;;
      let '(sp_link, sp_prev, cover_url) := sp in
      lyrics <- lyrics_best_effort w (first_artist artists) (or_str title []) ;;
      ret (Some {| title := title;
                   artists := artists;
                   cover_url := cover_url;
                   mbid := mbid;
                   spotify_link := sp_link;
                   spotify_preview := sp_prev;
                   lyrics_excerpt := lyrics |})
  end.

(** ** Vocabulary of the properties *)

(** A computation that leaves the file system as it found it. *)
Definition fs_pure {A} (m : M A) : Prop :=
  forall s, fs (snd (m s)) = fs s.

(** A computation whose external calls all satisfy [P]. *)
Definition emits {A} (P : event -> Prop) (m : M A) : Prop :=
  forall s, exists l, log (snd (m s)) = log s ++ l /\ Forall P l.

(** The state after the external calls [evs], with the disk as it was. *)
Definition after (s : state) (evs : list event) : state := mkState (fs s) (log s ++ evs).

(** A computation that never raises. *)
Definition total {A} (m : M A) : Prop :=
  forall s, exists a, fst (m s) = Ret a.

(** The calls of the enrichment stage. *)
Definition is_enrichment (ev : event) : Prop :=
  match ev with
  | EvCoverArt _ | EvSpotifyToken _ _ | EvSpotifySearch _ _ _ | EvLyrics _ => True
  | _ => False
  end.

(** A credit list that carries no artist name: every name is missing or
    empty. *)
Definition no_names (credits : list artist_credit) : Prop :=
  Forall (fun a => truthy_opt (ac_name a) = false) credits.


(** ** Concrete worlds *)

Module Examples.

Definition no_recording : recording :=
  {| rec_id := None; rec_title := None; rec_artist_credit := []; rec_releases := [] |}.

(** Nothing is configured, every service answers with an empty success,
    the decoder and the downloader work. *)
Definition quiet : world :=
  {| w_getenv := fun _ => None;
     w_ffmpeg := fun _ => FfOk;
     w_mkdtemp := lit "/tmp/tmpq1";
     w_mkstemp := fun suffix => lit "/tmp/tmpq2" ++ suffix;
     w_ytdlp := fun _ _ => ([lit "dl.webm"], None);
     w_fingerprint_file := fun _ => Raise (LibraryError (lit "NoBackendError") []);
     w_acoustid := fun _ _ _ =>
       Resp 200 (Some {| ab_status := Some (lit "ok"); ab_results := [] |});
     w_mb_search := fun _ _ _ => Resp 200 (Some []);
     w_mb_lookup := fun _ _ => Resp 404 None;
     w_cover_art := fun _ => Resp 404 None;
     w_spotify_token := fun _ _ => Resp 400 None;
     w_spotify_search := fun _ _ _ => Resp 200 (Some []);
     w_lyrics := fun _ => Resp 404 None |}.

Definition ua : str := lit "MusicJoo/1.0 (contact@example.com)".

Definition clip : str := lit "/data/clip.mp3".
Definition link : str := lit "https://example.org/v/1".

(** The clip is on disk, nothing has been called yet. *)
Definition start : state := mkState {[ clip ]} [].

(** The environment of a fully configured deployment. *)
Definition full_env (name : str) : option str :=
  if bool_decide (name = lit "ACOUSTID_API_KEY") then Some (lit "key")
  else if bool_decide (name = lit "SPOTIFY_CLIENT_ID") then Some (lit "cid")
  else if bool_decide (name = lit "SPOTIFY_CLIENT_SECRET") then Some (lit "sec")
  else None.

Definition coldplay : artist_credit := {| ac_name := Some (lit "Coldplay") |}.

Definition yellow : recording :=
  {| rec_id := Some (lit "r1");
     rec_title := Some (lit "Yellow");
     rec_artist_credit := [coldplay];
     rec_releases := [ {| rel_id := Some (lit "rel1") |} ] |}.

Definition yellow_item : spotify_item :=
  {| si_external_url := Some (lit "https://open.spotify.com/track/1");
     si_preview_url := Some (lit "https://p.scdn.co/1");
     si_album_images := [ {| img_url := Some (lit "https://i.scdn.co/1") |} ];
     si_artists := [coldplay];
     si_name := Some (lit "Yellow") |}.

Definition yellow_lyrics : str :=
  lit "Look at the stars" ++ [10%N] ++ lit "  Look how they shine for you  " ++ [10%N; 10%N]
  ++ lit "And everything you do".

(** Everything works: the metadata database knows the song, the cover
    exists, the commercial catalog finds it, the lyrics are there. *)
Definition healthy : world :=
  {| w_getenv := full_env;
     w_ffmpeg := w_ffmpeg quiet;
     w_mkdtemp := w_mkdtemp quiet;
     w_mkstemp := w_mkstemp quiet;
     w_ytdlp := w_ytdlp quiet;
     w_fingerprint_file := fun _ => Ret (lit "30.5", lit "AQADtMmybfGO8NCNEESLnzHyXNOHeHnG");
     w_acoustid := fun _ _ _ =>
       Resp 200 (Some {| ab_status := Some (lit "ok");
                         ab_results := [ {| am_score := Some (9 # 10);
                                            am_recordings := [ {| ar_id := Some (lit "r1") |} ] |} ] |});
     w_mb_search := fun _ _ _ => Resp 200 (Some [yellow]);
     w_mb_lookup := fun _ _ => Resp 200 (Some yellow);
     w_cover_art := fun _ => Resp 200 None;
     w_spotify_token := fun _ _ => Resp 200 (Some (Some (lit "tok")));
     w_spotify_search := fun _ _ _ => Resp 200 (Some [yellow_item]);
     w_lyrics := fun _ => Resp 200 (Some (Some yellow_lyrics)) |}.


(** A lyrics service whose text is a single line of 501 letters. *)
Definition one_long_line : str := repeat 97%N 501.

Definition long_lyrics : world :=
  {| w_getenv := w_getenv quiet;
     w_ffmpeg := w_ffmpeg quiet;
     w_mkdtemp := w_mkdtemp quiet;
     w_mkstemp := w_mkstemp quiet;
     w_ytdlp := w_ytdlp quiet;
     w_fingerprint_file := w_fingerprint_file quiet;
     w_acoustid := w_acoustid quiet;
     w_mb_search := w_mb_search quiet;
     w_mb_lookup := w_mb_lookup quiet;
     w_cover_art := w_cover_art quiet;
     w_spotify_token := w_spotify_token quiet;
     w_spotify_search := w_spotify_search quiet;
     w_lyrics := fun _ => Resp 200 (Some (Some one_long_line)) |}.


(** Three matches, the last two with the same, highest score. *)
Definition ranked_matches : list acoustid_match :=
  [ {| am_score := Some (1 # 2); am_recordings := [ {| ar_id := Some (lit "ra") |} ] |};
    {| am_score := Some (9 # 10);
       am_recordings := [ {| ar_id := Some (lit "rb") |}; {| ar_id := Some (lit "rb2") |} ] |};
    {| am_score := Some (18 # 20); am_recordings := [ {| ar_id := Some (lit "rc") |} ] |} ].

(** Worlds that differ from a given one in a single service. *)
Definition with_acoustid (w : world) (r : http acoustid_body) : world :=
  {| w_getenv := w_getenv w; w_ffmpeg := w_ffmpeg w; w_mkdtemp := w_mkdtemp w;
     w_mkstemp := w_mkstemp w; w_ytdlp := w_ytdlp w;
     w_fingerprint_file := w_fingerprint_file w;
     w_acoustid := fun _ _ _ => r;
     w_mb_search := w_mb_search w; w_mb_lookup := w_mb_lookup w;
     w_cover_art := w_cover_art w; w_spotify_token := w_spotify_token w;
     w_spotify_search := w_spotify_search w; w_lyrics := w_lyrics w |}.

Definition with_mb_search (w : world) (r : http (list recording)) : world :=
  {| w_getenv := w_getenv w; w_ffmpeg := w_ffmpeg w; w_mkdtemp := w_mkdtemp w;
     w_mkstemp := w_mkstemp w; w_ytdlp := w_ytdlp w;
     w_fingerprint_file := w_fingerprint_file w;
     w_acoustid := w_acoustid w;
     w_mb_search := fun _ _ _ => r; w_mb_lookup := w_mb_lookup w;
     w_cover_art := w_cover_art w; w_spotify_token := w_spotify_token w;
     w_spotify_search := w_spotify_search w; w_lyrics := w_lyrics w |}.

Definition with_mb_lookup (w : world) (r : http recording) : world :=
  {| w_getenv := w_getenv w; w_ffmpeg := w_ffmpeg w; w_mkdtemp := w_mkdtemp w;
     w_mkstemp := w_mkstemp w; w_ytdlp := w_ytdlp w;
     w_fingerprint_file := w_fingerprint_file w;
     w_acoustid := w_acoustid w;
     w_mb_search := w_mb_search w; w_mb_lookup := fun _ _ => r;
     w_cover_art := w_cover_art w; w_spotify_token := w_spotify_token w;
     w_spotify_search := w_spotify_search w; w_lyrics := w_lyrics w |}.

Definition with_cover_art (w : world) (r : http unit) : world :=
  {| w_getenv := w_getenv w; w_ffmpeg := w_ffmpeg w; w_mkdtemp := w_mkdtemp w;
     w_mkstemp := w_mkstemp w; w_ytdlp := w_ytdlp w;
     w_fingerprint_file := w_fingerprint_file w;
     w_acoustid := w_acoustid w;
     w_mb_search := w_mb_search w; w_mb_lookup := w_mb_lookup w;
     w_cover_art := fun _ => r; w_spotify_token := w_spotify_token w;
     w_spotify_search := w_spotify_search w; w_lyrics := w_lyrics w |}.

Definition with_spotify_token (w : world) (r : http (option str)) : world :=
  {| w_getenv := w_getenv w; w_ffmpeg := w_ffmpeg w; w_mkdtemp := w_mkdtemp w;
     w_mkstemp := w_mkstemp w; w_ytdlp := w_ytdlp w;
     w_fingerprint_file := w_fingerprint_file w;
     w_acoustid := w_acoustid w;
     w_mb_search := w_mb_search w; w_mb_lookup := w_mb_lookup w;
     w_cover_art := w_cover_art w; w_spotify_token := fun _ _ => r;
     w_spotify_search := w_spotify_search w; w_lyrics := w_lyrics w |}.

Definition with_spotify_search (w : world) (r : http (list spotify_item)) : world :=
  {| w_getenv := w_getenv w; w_ffmpeg := w_ffmpeg w; w_mkdtemp := w_mkdtemp w;
     w_mkstemp := w_mkstemp w; w_ytdlp := w_ytdlp w;
     w_fingerprint_file := w_fingerprint_file w;
     w_acoustid := w_acoustid w;
     w_mb_search := w_mb_search w; w_mb_lookup := w_mb_lookup w;
     w_cover_art := w_cover_art w; w_spotify_token := w_spotify_token w;
     w_spotify_search := fun _ _ _ => r; w_lyrics := w_lyrics w |}.

Definition with_lyrics (w : world) (r : http (option str)) : world :=
  {| w_getenv := w_getenv w; w_ffmpeg := w_ffmpeg w; w_mkdtemp := w_mkdtemp w;
     w_mkstemp := w_mkstemp w; w_ytdlp := w_ytdlp w;
     w_fingerprint_file := w_fingerprint_file w;
     w_acoustid := w_acoustid w;
     w_mb_search := w_mb_search w; w_mb_lookup := w_mb_lookup w;
     w_cover_art := w_cover_art w; w_spotify_token := w_spotify_token w;
     w_spotify_search := w_spotify_search w; w_lyrics := fun _ => r |}.

Definition with_getenv (w : world) (env : str -> option str) : world :=
  {| w_getenv := env; w_ffmpeg := w_ffmpeg w; w_mkdtemp := w_mkdtemp w;
     w_mkstemp := w_mkstemp w; w_ytdlp := w_ytdlp w;
     w_fingerprint_file := w_fingerprint_file w;
     w_acoustid := w_acoustid w;
     w_mb_search := w_mb_search w; w_mb_lookup := w_mb_lookup w;
     w_cover_art := w_cover_art w; w_spotify_token := w_spotify_token w;
     w_spotify_search := w_spotify_search w; w_lyrics := w_lyrics w |}.

(** The fingerprint service answers through a proxy: status 203, a
    well-formed body with matches. *)
Definition proxied : world :=
  with_acoustid healthy
    (Resp 203 (Some {| ab_status := Some (lit "ok"); ab_results := ranked_matches |})).

(** The fingerprint service reports an error in a 200 response. *)
Definition acoustid_refuses : world :=
  with_acoustid healthy
    (Resp 200 (Some {| ab_status := Some (lit "error"); ab_results := ranked_matches |})).

(** The commercial catalog's search is down; everything else works. *)
Definition spotify_down : world := with_spotify_search healthy (Resp 503 None).

(** The cover archive cannot be reached; everything else works. *)
Definition cover_down : world :=
  with_cover_art healthy (NetErr (LibraryError (lit "ConnectionError") [])).

(** The lyrics service cannot be reached; everything else works. *)
Definition lyrics_down : world :=
  with_lyrics healthy (NetErr (LibraryError (lit "ReadTimeout") [])).



(** The metadata database finds nothing; the commercial catalog does. *)
Definition only_spotify : world := with_mb_search healthy (Resp 200 (Some [])).

(** The metadata database lists a recording without artist names. *)
Definition anonymous : recording :=
  {| rec_id := Some (lit "r9");
     rec_title := Some (lit "Untitled");
     rec_artist_credit := [ {| ac_name := None |}; {| ac_name := Some [] |} ];
     rec_releases := [] |}.

Definition anonymous_world : world :=
  with_mb_lookup (with_mb_search healthy (Resp 200 (Some [anonymous])))
                 (Resp 200 (Some anonymous)).

Definition with_fingerprint (w : world) (r : result (str * str)) : world :=
  {| w_getenv := w_getenv w; w_ffmpeg := w_ffmpeg w; w_mkdtemp := w_mkdtemp w;
     w_mkstemp := w_mkstemp w; w_ytdlp := w_ytdlp w;
     w_fingerprint_file := fun _ => r;
     w_acoustid := w_acoustid w;
     w_mb_search := w_mb_search w; w_mb_lookup := w_mb_lookup w;
     w_cover_art := w_cover_art w; w_spotify_token := w_spotify_token w;
     w_spotify_search := w_spotify_search w; w_lyrics := w_lyrics w |}.

(** The same, with a fingerprinting library whose second result is a
    decimal number, which [int] accepts; a Chromaprint fingerprint never is
    one. *)
Definition anonymous_decimal : world :=
  with_fingerprint anonymous_world (Ret (lit "30.5", lit "123")).


(** The token exchange is refused; everything else works. *)
Definition token_refused : world := with_spotify_token healthy (Resp 401 None).

End Examples.
Import Examples.

(** ** bot.py *)

(** What a handler sends back to the chat. *)
Inductive reply :=
| ReplyText (text : str)
| ReplyMarkdown (text : str)
| ReplyPhoto (photo caption : str).

(** A media attachment of a message. *)
Record attachment := { att_file_id : str }.

(** The parts of an incoming update the handlers read. *)
Record message := {
  msg_text : option str;
  msg_chat_type : str;
  msg_audio : option attachment;
  msg_voice : option attachment;
  msg_video : option attachment;
  msg_video_note : option attachment;
  msg_document : option attachment
}.

(** What the handlers take from outside the pipeline: the Telegram client,
    the temporary file name, and Python's own [str.lower] and [str(e)]. *)
Record bot_env := {
  (** the exception a send raises, if it does *)
  tg_send : reply -> option exc;
  (** the exception [get_file()] raises, if it does *)
  tg_get_file : attachment -> option exc;
  (** the exception [download_to_drive] raises, if it does *)
  tg_download : attachment -> str -> option exc;
  (** the name of the file [tempfile.NamedTemporaryFile(delete=False)] creates *)
  tg_tmp_name : str;
  py_lower : str -> str;
  py_str : exc -> str;
  (** the attribute [name] of a library's exception class, by the name of
      the class, as an f-string renders it, when the class has one *)
  py_name_attr : str -> option str
}.

(** The state of a handler: the pipeline's state and the replies that
    reached the chat (oldest first). *)
Record bot_state := mkBot {
  inner : state;
  delivered : list reply
}.

Definition B (A : Type) : Type := bot_state -> result A * bot_state.

Definition bret {A} (a : A) : B A := fun b => (Ret a, b).
Definition braise {A} (e : exc) : B A := fun b => (Raise e, b).
Definition bbind {A C} (m : B A) (k : A -> B C) : B C :=
  fun b => match m b with
           | (Ret a, b') => k a b'
           | (Raise e, b') => (Raise e, b')
           end.

Notation "x <~ m ;; k" := (bbind m (fun x => k))
  (at level 100, m at next level, right associativity).

Definition btry {A} (body : B A) (handler : exc -> B A) : B A :=
  fun b => match body b with
           | (Ret a, b') => (Ret a, b')
           | (Raise e, b') => handler e b'
           end.

(** A pipeline computation run inside a handler. *)
Definition lift {A} (m : M A) : B A :=
  fun b => let '(r, s') := m (inner b) in (r, mkBot s' (delivered b)).

(** [await update.message.reply_...(...)] *)
Definition send (env : bot_env) (r : reply) : B unit :=
  fun b => match tg_send env r with
           | Some e => (Raise e, b)
           | None => (Ret tt, mkBot (inner b) (delivered b ++ [r]))
           end.

(** [type(e).__name__] *)
Definition exc_type_name (e : exc) : str :=
  match e with
  | HTTPError _ => lit "HTTPError"
  | JSONDecodeError => lit "JSONDecodeError"
  | KeyError _ => lit "KeyError"
  | IndexError => lit "IndexError"
  | RuntimeError _ => lit "RuntimeError"
  | ValueError _ => lit "ValueError"
  | AttributeError _ => lit "AttributeError"
  | CalledProcessError _ => lit "CalledProcessError"
  | LibraryError kind _ => kind
  end.

(** [type(e).name]: the classes the pipeline raises itself have no
    attribute [name]; a library's class may have one, and so has
    AttributeError from Python 3.10 on. *)
Definition class_name_attr (env : bot_env) (e : exc) : option str :=
  match e with
  | LibraryError kind _ => py_name_attr env kind
  | AttributeError _ => py_name_attr env (lit "AttributeError")
  | _ => None
  end.

(** The exception as [human_exc] sees it. *)
Definition describe (env : bot_env) (e : exc) : exception :=
  {| type_name := exc_type_name e;
     type_name_attr := class_name_attr env e;
     exc_str := py_str env e |}.

(** [needle in hay] *)
Fixpoint contains (needle hay : str) : bool :=
  starts_with needle hay
  || match hay with
     | [] => false
     | _ :: hay' => contains needle hay'
     end.

(** [BOT_USERNAME = get_env("BOT_USERNAME", "").lower()] *)
Definition BOT_USERNAME (w : world) (env : bot_env) : str :=
  py_lower env (get_env w (lit "BOT_USERNAME") []).

(** [MB_UA] *)
Definition MB_UA (w : world) : str :=
  get_env w (lit "MUSICBRAINZ_USER_AGENT") (lit "MusicJoo/1.0 (contact@example.com)").

(** [_mentioned_me(text)] *)
Definition _mentioned_me (w : world) (env : bot_env) (text : str) : bool :=
  if negb (truthy (BOT_USERNAME w env)) then false
  else contains (lit "@" ++ BOT_USERNAME w env) (py_lower env text).

(** The caption [_reply_with_result] builds. *)
Definition caption_of (res : track_result) : str :=
  let title := or_str (title res) (lit "Unknown") in
  let artists := artists res in
  let caption := strip (lit ":musical_note: *" ++ title ++ lit "* " ++ [0x2014%N]
                        ++ lit " " ++ artists) in
  let caption := if truthy_opt (spotify_link res)
                 then caption ++ [10%N] ++ lit "Spotify: " ++ fmt (spotify_link res)
                 else caption in
  let caption := if truthy_opt (spotify_preview res)
                 then caption ++ [10%N] ++ lit "Preview (30s): " ++ fmt (spotify_preview res)
                 else caption in
  if truthy_opt (lyrics_excerpt res)
  then caption ++ [10%N; 10%N] ++ lit "_lyrics (excerpt):_" ++ [10%N]
       ++ take 500 (fmt (lyrics_excerpt res))
  else caption.

(** [_reply_with_result(update, res)] *)
Definition _reply_with_result (env : bot_env) (res : track_result) : B unit :=
  let caption := caption_of res in
  match cover_url res with
  | Some cover =>
      if truthy cover then
        sent <~ btry (_ <~ send env (ReplyPhoto cover caption) ;; bret true)
                     (fun _ => bret false) ;;
        if sent : bool then bret tt else send env (ReplyMarkdown caption)
      else send env (ReplyMarkdown caption)
  | None => send env (ReplyMarkdown caption)
  end.

Definition no_match_text : str :=
  lit "No match found. Try a clearer title, link, or a short audio clip :pray:".

Definition not_identified_text : str :=
  lit "Couldn't identify from this clip. Try a slightly longer/clearer segment.".

(** [await update.message.reply_text(f"Error: {human_exc(e)}")], the body
    of both [except Exception as e] handlers: an exception raised while the
    text is built leaves the handler. *)
Definition reply_error (env : bot_env) (e : exc) : B unit :=
  match human_exc (describe env e) with
  | Ret text => send env (ReplyText (lit "Error: " ++ text))
  | Raise e' => braise e'
  end.

(** [handle_text_or_link(update, context)] *)
Definition handle_text_or_link (w : world) (env : bot_env) (msg : message) : B unit :=
  btry
    (let text := strip (or_str (msg_text msg) []) in
     let chat_type := msg_chat_type msg in
     if (bool_decide (chat_type = lit "group") || bool_decide (chat_type = lit "supergroup"))
        && negb (_mentioned_me w env text)
     then bret tt
     else
       res <~ (if is_url text
               then lift (identify_from_audio_input w text (MB_UA w))
               else lift (identify_from_text w text (MB_UA w))) ;;
       match res with
       | Some r => _reply_with_result env r
       | None => send env (ReplyText no_match_text)
       end)
    (fun e => reply_error env e).

(** The attachment [handle_media] takes: the first that is present among
    audio, voice, video, video note and document. *)
Definition first_attachment (msg : message) : option attachment :=
  match msg_audio msg with
  | Some a => Some a
  | None =>
      match msg_voice msg with
      | Some a => Some a
      | None =>
          match msg_video msg with
          | Some a => Some a
          | None =>
              match msg_video_note msg with
              | Some a => Some a
              | None => msg_document msg
              end
          end
      end
  end.

(** [os.remove(path)] *)
Definition os_remove (p : str) : M unit :=
  fun s => if bool_decide (p ∈ fs s)
           then (Ret tt, mkState (fs s ∖ {[ p ]}) (log s))
           else (Raise (LibraryError (lit "FileNotFoundError") p), s).

(** [with tempfile.NamedTemporaryFile(delete=False) as tmp:
       await file.download_to_drive(tmp.name); local_path = tmp.name] *)
Definition download_upload (env : bot_env) (file : attachment) : B str :=
  let name := tg_tmp_name env in
  _ <~ lift (fs_create name) ;;
  match tg_download env file name with
  | Some e => braise e
  | None => bret name
  end.

(** [handle_media(update, context)] *)
Definition handle_media (w : world) (env : bot_env) (msg : message) : B unit :=
  btry
    (match first_attachment msg with
     | None => send env (ReplyText (lit "Unsupported file."))
     | Some a =>
         match tg_get_file env a with
         | Some e => braise e
         | None =>
             local_path <~ download_upload env a ;;
             res <~ lift (identify_from_audio_input w local_path (MB_UA w)) ;;
             _ <~ match res with
                  | Some r => _reply_with_result env r
                  | None => send env (ReplyText not_identified_text)
                  end ;;
             btry (lift (os_remove local_path)) (fun _ => bret tt)
         end
     end)
    (fun e => reply_error env e).

(** ** Further vocabulary *)

(** Where a cover address can come from: the archive answered 200 for it,
    or it is the first album image of the first hit of a catalog search. *)
Definition cover_origin (w : world) (u : str) : Prop :=
  (exists body, w_cover_art w u = Resp 200 body)
  \/ (exists q tok status item items,
        w_spotify_search w q tok 1 = Resp status (Some (item :: items))
        /\ sp_cover (spotify_track_link_and_preview item) = Some u).

(** A computation that removes no file. *)
Definition fs_grows {A} (m : M A) : Prop :=
  forall s, fs s ⊆ fs (snd (m s)).

(** Every external call except the free-text metadata search. *)
Definition not_text_search (ev : event) : Prop :=
  match ev with
  | EvMbSearch _ _ _ => False
  | _ => True
  end.

(** ** Further worlds *)

Module MoreExamples.

(** The lyrics service answers with blank lines only. *)
Definition blank_lyrics : world :=
  with_lyrics healthy (Resp 200 (Some (Some [32%N; 10%N; 9%N; 32%N]))).

(** The token exchange fails on the server side. *)
Definition token_error : world := with_spotify_token healthy (Resp 500 None).


(** The downloader ends without an error and without a media file. *)
Definition empty_download : world :=
  {| w_getenv := w_getenv healthy; w_ffmpeg := w_ffmpeg healthy;
     w_mkdtemp := w_mkdtemp healthy; w_mkstemp := w_mkstemp healthy;
     w_ytdlp := fun _ _ => ([lit "notes.txt"], None);
     w_fingerprint_file := w_fingerprint_file healthy;
     w_acoustid := w_acoustid healthy;
     w_mb_search := w_mb_search healthy; w_mb_lookup := w_mb_lookup healthy;
     w_cover_art := w_cover_art healthy; w_spotify_token := w_spotify_token healthy;
     w_spotify_search := w_spotify_search healthy; w_lyrics := w_lyrics healthy |}.

(** The decoder converts the download but fails on the final copy (the
    command line with four arguments). *)
Definition copy_fails : world :=
  {| w_getenv := w_getenv healthy;
     w_ffmpeg := fun args => if Nat.eqb (length args) 4 then FfFail false else FfOk;
     w_mkdtemp := w_mkdtemp healthy; w_mkstemp := w_mkstemp healthy;
     w_ytdlp := w_ytdlp healthy;
     w_fingerprint_file := w_fingerprint_file healthy;
     w_acoustid := w_acoustid healthy;
     w_mb_search := w_mb_search healthy; w_mb_lookup := w_mb_lookup healthy;
     w_cover_art := w_cover_art healthy; w_spotify_token := w_spotify_token healthy;
     w_spotify_search := w_spotify_search healthy; w_lyrics := w_lyrics healthy |}.


(** A Telegram client on which everything works. *)
Definition ascii_lower (c : N) : N :=
  if in_range 0x41 0x5A c then (c + 32)%N else c.

Definition tg_ok : bot_env :=
  {| tg_send := fun _ => None;
     tg_get_file := fun _ => None;
     tg_download := fun _ _ => None;
     tg_tmp_name := lit "/tmp/tmpup1";
     py_lower := map ascii_lower;
     py_str := fun _ => lit "failed";
     py_name_attr := fun _ => None |}.

(** The same client under an interpreter where a failed import is reported
    by a class with the attribute [name] (a member of ImportError). *)
Definition tg_import_error : bot_env :=
  {| tg_send := tg_send tg_ok;
     tg_get_file := tg_get_file tg_ok;
     tg_download := tg_download tg_ok;
     tg_tmp_name := tg_tmp_name tg_ok;
     py_lower := py_lower tg_ok;
     py_str := fun _ => lit "No module named 'yt_dlp'";
     py_name_attr := fun kind =>
                       if bool_decide (kind = lit "ModuleNotFoundError")
                       then Some (lit "<member 'name' of 'ImportError' objects>")
                       else None |}.

(** A client that cannot send photos. *)
Definition tg_no_photo : bot_env :=
  {| tg_send := fun r => match r with
                         | ReplyPhoto _ _ => Some (LibraryError (lit "BadRequest") [])
                         | _ => None
                         end;
     tg_get_file := tg_get_file tg_ok;
     tg_download := tg_download tg_ok;
     tg_tmp_name := tg_tmp_name tg_ok;
     py_lower := py_lower tg_ok;
     py_str := py_str tg_ok;
     py_name_attr := py_name_attr tg_ok |}.

Definition private_text (t : string) : message :=
  {| msg_text := Some (lit t); msg_chat_type := lit "private";
     msg_audio := None; msg_voice := None; msg_video := None;
     msg_video_note := None; msg_document := None |}.

Definition group_text (t : string) : message :=
  {| msg_text := Some (lit t); msg_chat_type := lit "group";
     msg_audio := None; msg_voice := None; msg_video := None;
     msg_video_note := None; msg_document := None |}.

Definition voice_note : message :=
  {| msg_text := None; msg_chat_type := lit "private";
     msg_audio := None; msg_voice := Some {| att_file_id := lit "f1" |};
     msg_video := None; msg_video_note := None; msg_document := None |}.

(** Nothing on disk, nothing called, nothing sent. *)
Definition idle : bot_state := mkBot (mkState ∅ []) [].

(** The result of the healthy text search for yellow. *)
Definition yellow_result : track_result :=
  {| title := Some (lit "Yellow");
     artists := lit "Coldplay";
     cover_url := Some (lit "https://coverartarchive.org/release/rel1/front");
     mbid := Some (lit "r1");
     spotify_link := Some (lit "https://open.spotify.com/track/1");
     spotify_preview := Some (lit "https://p.scdn.co/1");
     lyrics_excerpt := Some (excerpt_of yellow_lyrics) |}.

(** The decoder is missing: no conversion can be started. *)
Definition no_decoder : world :=
  {| w_getenv := w_getenv healthy;
     w_ffmpeg := fun _ => FfNotRun (LibraryError (lit "FileNotFoundError") []);
     w_mkdtemp := w_mkdtemp healthy; w_mkstemp := w_mkstemp healthy;
     w_ytdlp := w_ytdlp healthy;
     w_fingerprint_file := w_fingerprint_file healthy;
     w_acoustid := w_acoustid healthy;
     w_mb_search := w_mb_search healthy; w_mb_lookup := w_mb_lookup healthy;
     w_cover_art := w_cover_art healthy; w_spotify_token := w_spotify_token healthy;
     w_spotify_search := w_spotify_search healthy; w_lyrics := w_lyrics healthy |}.


(** The metadata database lists a recording whose first release has no id. *)
Definition release_without_id : recording :=
  {| rec_id := Some (lit "r2");
     rec_title := Some (lit "Yellow");
     rec_artist_credit := [coldplay];
     rec_releases := [ {| rel_id := None |}; {| rel_id := Some (lit "rel1") |} ] |}.

Definition broken_release : world :=
  with_mb_search healthy (Resp 200 (Some [release_without_id])).

End MoreExamples.
Import MoreExamples.

(** * Properties *)

(** ** The string operations on examples *)

Example splitlines_examples :
  splitlines (lit "ab" ++ [10%N] ++ lit "c" ++ [13%N; 10%N; 10%N]) = [lit "ab"; lit "c"; []]
  /\ splitlines [10%N] = [[]]
  /\ splitlines [] = []
  /\ splitlines [10%N; 13%N; 97%N; 13%N] = [[]; []; lit "a"].
Proof. vm_compute. repeat split. Qed.

Example strip_examples :
  strip (lit "  a b  ") = lit "a b"
  /\ strip [9%N; 0xA0%N; 10%N] = []
  /\ split_first 0x2C (lit "Coldplay, Beyonce") = lit "Coldplay".
Proof. vm_compute. repeat split. Qed.

Example is_url_examples :
  is_url (lit "https://x") = true
  /\ is_url (lit "  HTTP://x ") = true
  /\ is_url (lit "coldplay yellow") = false
  /\ is_url [] = false
  /\ is_url (lit "/data/clip.mp3") = false.
Proof. vm_compute. repeat split. Qed.

Example path_join_examples :
  path_join (lit "/tmp/d") (lit "audio.wav") = lit "/tmp/d/audio.wav"
  /\ path_join (lit "/tmp/d/") (lit "audio.wav") = lit "/tmp/d/audio.wav"
  /\ path_join (lit "/tmp/d") (lit "/abs") = lit "/abs"
  /\ inside (lit "/tmp/d") (lit "/tmp/d/dl.webm") = true
  /\ inside (lit "/tmp/d") (lit "/tmp/d2.wav") = false.
Proof. vm_compute. repeat split. Qed.

(** ** The error description of [human_exc] *)

Lemma human_exc_without_name_attribute (e : exception) :
  type_name_attr e = None ->
  human_exc e
  = Raise (AttributeError (lit "type object '" ++ type_name e
                           ++ lit "' has no attribute 'name'")).
Proof. intros H. unfold human_exc. rewrite H. reflexivity. Qed.

Lemma human_exc_with_name_attribute (e : exception) (name : str) :
  type_name_attr e = Some name ->
  human_exc e = Ret (name ++ lit ": " ++ take 300 (exc_str e)).
Proof. intros H. unfold human_exc. rewrite H. reflexivity. Qed.

(** C8 at a RuntimeError, as [extract_audio_from_url] raises it: the class
    has no attribute [name], so whatever the message and its rendering,
    instead of a description made of the error kind and the truncated
    message the function raises AttributeError. *)
Theorem human_exc_raises_for_runtime_error (env : bot_env) (msg : str) :
  human_exc (describe env (RuntimeError msg))
  = Raise (AttributeError (lit "type object 'RuntimeError' has no attribute 'name'")).
Proof.
  apply human_exc_without_name_attribute. reflexivity.
Qed.

(** ** The lyrics excerpt *)

Lemma total_len_app (a b : list str) :
  total_len (a ++ b) = total_len a + total_len b.
Proof.
  induction a as [|x a IH]; simpl; [reflexivity|].
  unfold total_len in *. simpl. rewrite IH. lia.
Qed.

Lemma total_len_removelast (l : list str) :
  total_len (removelast l) <= total_len l.
Proof.
  induction l as [|x l IH]; [reflexivity|].
  destruct l as [|y l]; [unfold total_len; simpl; lia|].
  change (removelast (x :: y :: l)) with (x :: removelast (y :: l)).
  unfold total_len in *. simpl in *. lia.
Qed.

Lemma kept_cons_truthy line lines :
  truthy (strip line) = true -> kept (line :: lines) = strip line :: kept lines.
Proof. intros H. unfold kept. simpl. rewrite H. reflexivity. Qed.

Lemma kept_cons_blank line lines :
  truthy (strip line) = false -> kept (line :: lines) = kept lines.
Proof. intros H. unfold kept. simpl. rewrite H. reflexivity. Qed.

(** The loop consumes a prefix of the lines, keeps the stripped non-blank
    ones in order, and stops only at the end of the text or right after the
    line that takes the total above 500. *)
Lemma excerpt_loop_spec (lines : list str) :
  forall out : list str,
    total_len out <= 500 ->
    exists k,
      k <= length lines
      /\ excerpt_loop lines out = out ++ kept (take k lines)
      /\ total_len (removelast (excerpt_loop lines out)) <= 500
      /\ (k = length lines \/ 500 < total_len (excerpt_loop lines out)).
Proof.
  induction lines as [|line rest IH]; intros out Hout.
  - exists 0. simpl. rewrite app_nil_r.
    repeat split; auto.
    pose proof (total_len_removelast out). lia.
  - cbn [excerpt_loop].
    destruct (truthy (strip line)) eqn:Hline.
    + destruct (500 <? total_len (out ++ [strip line])) eqn:Hover.
      * exists 1. cbn [take firstn]. rewrite (kept_cons_truthy _ _ Hline).
        unfold kept at 1. simpl.
        repeat split.
        -- simpl. lia.
        -- rewrite removelast_last. exact Hout.
        -- right. apply Nat.ltb_lt. exact Hover.
      * apply Nat.ltb_ge in Hover.
        destruct (IH (out ++ [strip line]) Hover) as (k & Hk & Heq & Hpre & Hstop).
        exists (S k). cbn [take firstn].
        rewrite (kept_cons_truthy _ _ Hline).
        repeat split.
        -- simpl. lia.
        -- rewrite Heq, <- app_assoc. reflexivity.
        -- exact Hpre.
        -- destruct Hstop as [-> | Hstop]; [left; reflexivity | right; exact Hstop].
    + destruct (500 <? total_len out) eqn:Hover.
      * apply Nat.ltb_lt in Hover. lia.
      * destruct (IH out Hout) as (k & Hk & Heq & Hpre & Hstop).
        exists (S k). cbn [take firstn].
        rewrite (kept_cons_blank _ _ Hline).
        repeat split.
        -- simpl. lia.
        -- exact Heq.
        -- exact Hpre.
        -- destruct Hstop as [-> | Hstop]; [left; reflexivity | right; exact Hstop].
Qed.

Lemma kept_nonblank (lines : list str) :
  Forall (fun l => l <> []) (kept lines).
Proof.
  unfold kept. apply List.Forall_forall. intros l Hin.
  apply filter_In in Hin. destruct Hin as [_ Hl].
  destruct l; [discriminate | congruence].
Qed.

(** ** Reasoning about runs *)

Lemma bind_ret_inv {A B} (m : M A) (k : A -> M B) s b s' :
  bind m k s = (Ret b, s') ->
  exists a s1, m s = (Ret a, s1) /\ k a s1 = (Ret b, s').
Proof.
  unfold bind. destruct (m s) as [[a|e] s1]; intros H.
  - exists a, s1. auto.
  - discriminate.
Qed.

Lemma bind_run_ret {A B} (m : M A) (k : A -> M B) s a s1 :
  m s = (Ret a, s1) -> bind m k s = k a s1.
Proof. unfold bind. intros ->. reflexivity. Qed.

Lemma bind_run_raise {A B} (m : M A) (k : A -> M B) s e s1 :
  m s = (Raise e, s1) -> bind m k s = (Raise e, s1).
Proof. unfold bind. intros ->. reflexivity. Qed.

Section Frame.
Context {A B : Type}.

Lemma fs_pure_ret (a : A) : fs_pure (ret a).
Proof. intros s. reflexivity. Qed.

Lemma fs_pure_raise (e : exc) : fs_pure (@raise A e).
Proof. intros s. reflexivity. Qed.

Lemma fs_pure_bind (m : M A) (k : A -> M B) :
  fs_pure m -> (forall a, fs_pure (k a)) -> fs_pure (bind m k).
Proof.
  intros Hm Hk s. unfold bind. specialize (Hm s).
  destruct (m s) as [[a|e] s1]; simpl in *.
  - rewrite Hk. exact Hm.
  - exact Hm.
Qed.

Lemma fs_pure_try (m : M A) (h : exc -> M A) :
  fs_pure m -> (forall e, fs_pure (h e)) -> fs_pure (try_except m h).
Proof.
  intros Hm Hh s. unfold try_except. specialize (Hm s).
  destruct (m s) as [[a|e] s1]; simpl in *.
  - exact Hm.
  - rewrite Hh. exact Hm.
Qed.

Lemma emits_ret P (a : A) : emits P (ret a).
Proof. intros s. exists []. simpl. rewrite app_nil_r. auto. Qed.

Lemma emits_raise P (e : exc) : emits P (@raise A e).
Proof. intros s. exists []. simpl. rewrite app_nil_r. auto. Qed.

Lemma emits_bind P (m : M A) (k : A -> M B) :
  emits P m -> (forall a, emits P (k a)) -> emits P (bind m k).
Proof.
  intros Hm Hk s. unfold bind. destruct (Hm s) as (l & Hl & HP).
  destruct (m s) as [[a|e] s1]; simpl in *.
  - destruct (Hk a s1) as (l' & Hl' & HP').
    exists (l ++ l'). rewrite Hl', Hl, app_assoc. split; [reflexivity|].
    apply Forall_app. auto.
  - exists l. auto.
Qed.

Lemma emits_try P (m : M A) (h : exc -> M A) :
  emits P m -> (forall e, emits P (h e)) -> emits P (try_except m h).
Proof.
  intros Hm Hh s. unfold try_except. destruct (Hm s) as (l & Hl & HP).
  destruct (m s) as [[a|e] s1]; simpl in *.
  - exists l. auto.
  - destruct (Hh e s1) as (l' & Hl' & HP').
    exists (l ++ l'). rewrite Hl', Hl, app_assoc. split; [reflexivity|].
    apply Forall_app. auto.
Qed.

Lemma emits_weaken (P Q : event -> Prop) (m : M A) :
  (forall ev, P ev -> Q ev) -> emits P m -> emits Q m.
Proof.
  intros HPQ Hm s. destruct (Hm s) as (l & Hl & HP).
  exists l. split; [exact Hl|]. eapply Forall_impl; eauto.
Qed.

Lemma total_ret (a : A) : total (ret a).
Proof. intros s. exists a. reflexivity. Qed.

Lemma total_try (m : M A) (h : exc -> M A) :
  (forall e, total (h e)) -> total (try_except m h).
Proof.
  intros Hh s. unfold try_except.
  destruct (m s) as [[a|e] s1]; simpl.
  - exists a. reflexivity.
  - apply Hh.
Qed.
End Frame.

Lemma fs_pure_emit ev : fs_pure (emit ev).
Proof. intros s. reflexivity. Qed.

Lemma emits_emit (P : event -> Prop) ev : P ev -> emits P (emit ev).
Proof. intros H s. exists [ev]. simpl. auto. Qed.

Lemma fs_pure_request {A} ev (r : http A) : fs_pure (request ev r).
Proof.
  unfold request. apply fs_pure_bind; [apply fs_pure_emit|].
  intros _. destruct r; [apply fs_pure_raise | apply fs_pure_ret].
Qed.

Lemma emits_request {A} (P : event -> Prop) ev (r : http A) :
  P ev -> emits P (request ev r).
Proof.
  intros H. unfold request. apply emits_bind; [apply emits_emit; exact H|].
  intros _. destruct r; [apply emits_raise | apply emits_ret].
Qed.

Lemma fs_pure_raise_for_status status : fs_pure (raise_for_status status).
Proof.
  unfold raise_for_status.
  destruct (_ && _); [apply fs_pure_raise | apply fs_pure_ret].
Qed.

Lemma emits_raise_for_status P status : emits P (raise_for_status status).
Proof.
  unfold raise_for_status.
  destruct (_ && _); [apply emits_raise | apply emits_ret].
Qed.

Lemma fs_pure_json {A} (body : option A) : fs_pure (json body).
Proof. destruct body; [apply fs_pure_ret | apply fs_pure_raise]. Qed.

Lemma emits_json {A} P (body : option A) : emits P (json body).
Proof. destruct body; [apply emits_ret | apply emits_raise]. Qed.

Create HintDb frame.
#[export] Hint Resolve fs_pure_ret fs_pure_raise fs_pure_emit fs_pure_request
  fs_pure_raise_for_status fs_pure_json : frame.
#[export] Hint Resolve emits_ret emits_raise emits_raise_for_status emits_json
  total_ret : frame.

(** Walk through a computation: split binds and handlers, take every branch. *)
Ltac frame_step :=
  match goal with
  | |- fs_pure (bind _ _) => apply fs_pure_bind; [|intros ?]
  | |- fs_pure (try_except _ _) => apply fs_pure_try; [|intros ?]
  | |- emits _ (bind _ _) => apply emits_bind; [|intros ?]
  | |- emits _ (try_except _ _) => apply emits_try; [|intros ?]
  | |- emits _ (request _ _) => apply emits_request
  | |- emits _ (emit _) => apply emits_emit
  | |- total (try_except _ _) => apply total_try; intros ?
  | |- ?F (match ?x with _ => _ end) => destruct x
  | |- ?F _ (match ?x with _ => _ end) => destruct x
  | |- ?F (let '(_, _) := ?x in _) => destruct x
  | |- ?F _ (let '(_, _) := ?x in _) => destruct x
  end.

Ltac frame := repeat (first [solve [auto with frame] | frame_step]); simpl; auto.

(** ** Frame properties of the providers *)

Section Providers.
Context (w : world).

Lemma fs_pure_mb_search q ua limit : fs_pure (mb_search_recordings w q ua limit).
Proof. unfold mb_search_recordings. frame. Qed.

Lemma fs_pure_mb_lookup mbid ua : fs_pure (mb_lookup_recording w mbid ua).
Proof. unfold mb_lookup_recording. frame. Qed.

Lemma fs_pure_cover rid : fs_pure (cover_art_from_release w rid).
Proof. unfold cover_art_from_release. frame. Qed.

Lemma fs_pure_acoustid fp dur key : fs_pure (acoustid_lookup w fp dur key).
Proof. unfold acoustid_lookup. frame. Qed.

Lemma fs_pure_client_token cid sec : fs_pure (spotify_client_credentials_token w cid sec).
Proof. unfold spotify_client_credentials_token. frame. Qed.

Lemma fs_pure_spotify_search q tok limit : fs_pure (spotify_search_track w q tok limit).
Proof. unfold spotify_search_track. frame. Qed.

Lemma fs_pure_lyrics artist ttl : fs_pure (lyrics_best_effort w artist ttl).
Proof. unfold lyrics_best_effort. frame. Qed.

Lemma fs_pure_fingerprint wav : fs_pure (_chromaprint_fingerprint w wav).
Proof. unfold _chromaprint_fingerprint. frame. Qed.

Lemma fs_pure_spotify_token : fs_pure (_spotify_token w).
Proof. unfold _spotify_token. pose proof fs_pure_client_token. frame. Qed.

Lemma fs_pure_enrich ttl arts cover : fs_pure (_enrich_spotify_and_cover w ttl arts cover).
Proof.
  unfold _enrich_spotify_and_cover.
  pose proof fs_pure_spotify_token. pose proof fs_pure_spotify_search. frame.
Qed.

Lemma fs_pure_cover_of_releases rels : fs_pure (cover_of_releases w rels).
Proof. unfold cover_of_releases. pose proof fs_pure_cover. frame. Qed.

Lemma emits_cover rid : emits is_enrichment (cover_art_from_release w rid).
Proof. unfold cover_art_from_release. frame. Qed.

Lemma emits_client_token cid sec :
  emits is_enrichment (spotify_client_credentials_token w cid sec).
Proof. unfold spotify_client_credentials_token. frame. Qed.

Lemma emits_spotify_search q tok limit :
  emits is_enrichment (spotify_search_track w q tok limit).
Proof. unfold spotify_search_track. frame. Qed.

Lemma emits_lyrics artist ttl : emits is_enrichment (lyrics_best_effort w artist ttl).
Proof. unfold lyrics_best_effort. frame. Qed.

Lemma emits_spotify_token : emits is_enrichment (_spotify_token w).
Proof. unfold _spotify_token. pose proof emits_client_token. frame. Qed.

Lemma emits_enrich ttl arts cover :
  emits is_enrichment (_enrich_spotify_and_cover w ttl arts cover).
Proof.
  unfold _enrich_spotify_and_cover.
  pose proof emits_spotify_token. pose proof emits_spotify_search. frame.
Qed.

Lemma emits_cover_of_releases rels : emits is_enrichment (cover_of_releases w rels).
Proof. unfold cover_of_releases. pose proof emits_cover. frame. Qed.

(** The cover probe, the lyrics fetch and the fingerprinter degrade to
    absence: they return whatever the services do. *)
Lemma total_cover rid : total (cover_art_from_release w rid).
Proof. unfold cover_art_from_release. frame. Qed.

Lemma total_lyrics artist ttl : total (lyrics_best_effort w artist ttl).
Proof. unfold lyrics_best_effort. frame. Qed.

Lemma total_fingerprint wav : total (_chromaprint_fingerprint w wav).
Proof. unfold _chromaprint_fingerprint. frame. Qed.
End Providers.

(** ** The lyrics fetch *)

(** The address [lyrics_best_effort] asks for a song. *)
Lemma lyrics_best_effort_some w artist ttl s excerpt s' :
  lyrics_best_effort w artist ttl s = (Ret (Some excerpt), s') ->
  exists txt,
    w_lyrics w (lit "https://api.lyrics.ovh/v1/" ++ artist ++ lit "/" ++ ttl)
      = Resp 200 (Some (Some txt))
    /\ txt <> []
    /\ excerpt = excerpt_of txt.
Proof.
  unfold lyrics_best_effort.
  destruct (negb (truthy artist) || negb (truthy ttl)); [discriminate|].
  unfold try_except, bind, request, emit. simpl.
  destruct (w_lyrics w _) as [e | status body]; simpl; [discriminate|].
  destruct (status =? 200)%Z eqn:Hst; simpl; [|discriminate].
  apply Z.eqb_eq in Hst. subst status.
  destruct body as [[txt|]|]; simpl; try discriminate.
  destruct txt as [|c txt]; simpl; [discriminate|].
  intros H. inversion H. exists (c :: txt). repeat split. discriminate.
Qed.

(** C2, as the code has it: an excerpt is made of whole source lines,
    stripped, non-blank and in source order; the lines before its last one
    total at most 500 characters, and collection stops only at the end of the
    text or right after the line that takes the total above 500. *)
Theorem lyrics_excerpt_whole_lines w artist ttl s excerpt s' :
  lyrics_best_effort w artist ttl s = (Ret (Some excerpt), s') ->
  exists (txt : str) (k : nat),
    w_lyrics w (lit "https://api.lyrics.ovh/v1/" ++ artist ++ lit "/" ++ ttl)
      = Resp 200 (Some (Some txt))
    /\ k <= length (splitlines (strip txt))
    /\ excerpt = join [10%N] (kept (take k (splitlines (strip txt))))
    /\ Forall (fun l => l <> []) (kept (take k (splitlines (strip txt))))
    /\ total_len (removelast (kept (take k (splitlines (strip txt))))) <= 500
    /\ (k = length (splitlines (strip txt))
        \/ 500 < total_len (kept (take k (splitlines (strip txt))))).
Proof.
  intros Hrun.
  destruct (lyrics_best_effort_some _ _ _ _ _ _ Hrun) as (txt & Hw & _ & ->).
  destruct (excerpt_loop_spec (splitlines (strip txt)) []) as (k & Hk & Heq & Hpre & Hstop).
  { unfold total_len. simpl. lia. }
  simpl in Heq.
  exists txt, k. unfold excerpt_of, excerpt_lines.
  rewrite Heq in *.
  repeat split; auto using kept_nonblank.
Qed.

(** The excerpt of a healthy lyrics answer: three whole lines. *)
Lemma lyrics_excerpt_whole_lines_witness :
  exists (txt : str) (k : nat),
    w_lyrics healthy (lit "https://api.lyrics.ovh/v1/" ++ lit "Coldplay" ++ lit "/" ++ lit "Yellow")
      = Resp 200 (Some (Some txt))
    /\ k <= length (splitlines (strip txt))
    /\ excerpt_of yellow_lyrics = join [10%N] (kept (take k (splitlines (strip txt))))
    /\ Forall (fun l => l <> []) (kept (take k (splitlines (strip txt))))
    /\ total_len (removelast (kept (take k (splitlines (strip txt))))) <= 500
    /\ (k = length (splitlines (strip txt))
        \/ 500 < total_len (kept (take k (splitlines (strip txt))))).
Proof.
  apply (lyrics_excerpt_whole_lines healthy (lit "Coldplay") (lit "Yellow") start
           (excerpt_of yellow_lyrics)
           (snd (lyrics_best_effort healthy (lit "Coldplay") (lit "Yellow") start))).
  vm_compute. reflexivity.
Defined.

(** C2 as stated fails: a lyrics text of one line of 501 letters is returned
    whole, as an excerpt of 501 characters. *)
Lemma lyrics_excerpt_exceeds_500 :
  exists excerpt,
    fst (lyrics_best_effort long_lyrics (lit "a") (lit "t") start) = Ret (Some excerpt)
    /\ ~ length excerpt <= 500.
Proof.
  exists one_long_line. split.
  - vm_compute. reflexivity.
  - vm_compute. lia.
Qed.

(** ** Files on disk after an identification call *)

(** However the download and the conversions end, nothing of the download
    directory is left when [extract_audio_from_url] returns or raises. *)
Lemma extract_audio_from_url_cleans w url out s p :
  inside (w_mkdtemp w) p ->
  p ∉ fs (snd (extract_audio_from_url w url out s)).
Proof.
  intros Hin. unfold extract_audio_from_url, with_TemporaryDirectory.
  match goal with |- context [let '(_, _) := ?b in _] => destruct b as [r s1] end.
  simpl. rewrite elem_of_filter. tauto.
Qed.

(** On success the decoder has written its last argument. *)
Lemma _run_ffmpeg_cmd_ret w args s u s1 :
  _run_ffmpeg_cmd w args s = (Ret u, s1) ->
  fs s1 = {[ ffmpeg_output args ]} ∪ fs s.
Proof.
  unfold _run_ffmpeg_cmd, bind, emit, fs_create. simpl.
  destruct (w_ffmpeg w args) as [|[|]|e0]; simpl; intros H; inversion H; reflexivity.
Qed.

Lemma extract_audio_from_file_ret w in_path s wav s1 :
  extract_audio_from_file w in_path None s = (Ret wav, s1) ->
  wav = in_path ++ lit ".wav" /\ fs s1 = {[ wav ]} ∪ fs s.
Proof.
  unfold extract_audio_from_file. intros H.
  apply bind_ret_inv in H. destruct H as (u & s0 & Hff & Hret).
  inversion Hret; subst. split; [reflexivity|].
  apply _run_ffmpeg_cmd_ret in Hff. exact Hff.
Qed.

Lemma extract_audio_from_url_ret w url s wav s1 :
  extract_audio_from_url w url None s = (Ret wav, s1) ->
  wav = w_mkstemp w (lit ".wav")
  /\ (inside (w_mkdtemp w) wav = false -> wav ∈ fs s1).
Proof.
  unfold extract_audio_from_url, with_TemporaryDirectory.
  match goal with |- context [let '(_, _) := ?b in _] => destruct b as [r s0] eqn:Hbody end.
  intros H. inversion H; subst. clear H.
  apply bind_ret_inv in Hbody. destruct Hbody as (listing & sa & _ & Hbody).
  destruct (List.filter _ listing) as [|f0 files]; [discriminate|].
  apply bind_ret_inv in Hbody. destruct Hbody as (u1 & sb & _ & Hbody).
  apply bind_ret_inv in Hbody. destruct Hbody as (final & sc & Hmk & Hbody).
  apply bind_ret_inv in Hbody. destruct Hbody as (u2 & sd & Hff & Hret).
  inversion Hret; subst. clear Hret.
  unfold mkstemp, bind, fs_create in Hmk. simpl in Hmk. inversion Hmk; subst. clear Hmk.
  split; [reflexivity|].
  intros Hout. simpl. rewrite elem_of_filter. split.
  - rewrite Hout. simpl. tauto.
  - apply _run_ffmpeg_cmd_ret in Hff. rewrite Hff. simpl.
    apply elem_of_union_l, elem_of_singleton. reflexivity.
Qed.

Lemma fs_pure_identify_from_matches w matches ua :
  fs_pure (identify_from_matches w matches ua).
Proof.
  unfold identify_from_matches.
  pose proof (fs_pure_mb_lookup w). pose proof (fs_pure_cover_of_releases w).
  pose proof (fs_pure_enrich w). pose proof (fs_pure_lyrics w).
  frame.
Qed.

(** After the conversion, the pipeline does not touch the file system. *)
Lemma identify_from_audio_input_fs w input ua s :
  fs (snd (identify_from_audio_input w input ua s)) = fs (snd (to_wav w input s)).
Proof.
  unfold identify_from_audio_input, bind at 1.
  destruct (to_wav w input s) as [[wav|e] s1]; simpl; [|reflexivity].
  pose proof (fs_pure_fingerprint w). pose proof (fs_pure_acoustid w).
  pose proof (fs_pure_identify_from_matches w).
  assert (Hrest : forall m : M (option track_result), fs_pure m -> fs (snd (m s1)) = fs s1)
    by (intros m Hm; apply Hm).
  apply Hrest. frame.
Qed.

(** C3, as the code has it: for a URL input the download directory and all
    it holds are gone when the call returns, on every exit path; the
    converted WAV file itself is never removed: once the conversion has
    succeeded the file system stays as the conversion left it and the WAV
    file is still there when the call returns, with a result, with absence
    or with an error. *)
Theorem normalization_files_after_call w input ua s r s' :
  identify_from_audio_input w input ua s = (r, s') ->
  (is_url input = true -> forall p, inside (w_mkdtemp w) p -> p ∉ fs s')
  /\ (forall wav s1,
        to_wav w input s = (Ret wav, s1) ->
        fs s' = fs s1
        /\ (is_url input = false \/ inside (w_mkdtemp w) wav = false -> wav ∈ fs s')).
Proof.
  intros Hrun.
  pose proof (identify_from_audio_input_fs w input ua s) as Hfs.
  rewrite Hrun in Hfs. simpl in Hfs.
  split.
  - intros Hurl p Hp. rewrite Hfs. unfold to_wav. rewrite Hurl.
    apply extract_audio_from_url_cleans. exact Hp.
  - intros wav s1 Hwav. rewrite Hfs, Hwav. simpl. split; [reflexivity|].
    unfold to_wav in Hwav. destruct (is_url input) eqn:Hurl.
    + apply extract_audio_from_url_ret in Hwav. destruct Hwav as [_ Hin].
      intros [Hc | Hout]; [discriminate | auto].
    + apply extract_audio_from_file_ret in Hwav. destruct Hwav as [_ ->].
      intros _. apply elem_of_union_l, elem_of_singleton. reflexivity.
Qed.

(** A link, identified with success: the download directory is gone, the
    converted file is not. *)
Lemma normalization_files_after_call_witness :
  (is_url link = true ->
   forall p, inside (w_mkdtemp healthy) p ->
             p ∉ fs (snd (identify_from_audio_input healthy link ua start)))
  /\ (forall wav s1,
        to_wav healthy link start = (Ret wav, s1) ->
        fs (snd (identify_from_audio_input healthy link ua start)) = fs s1
        /\ (is_url link = false \/ inside (w_mkdtemp healthy) wav = false ->
            wav ∈ fs (snd (identify_from_audio_input healthy link ua start)))).
Proof.
  apply (normalization_files_after_call healthy link ua start
           (fst (identify_from_audio_input healthy link ua start))).
  vm_compute. reflexivity.
Defined.

(** C3 as stated fails: identifying a clip from a file, with no fingerprint
    key configured, returns absence and leaves behind the WAV file the
    conversion created. *)
Lemma converted_wav_left_behind :
  fst (to_wav quiet clip start) = Ret (clip ++ lit ".wav")
  /\ ((clip ++ lit ".wav") ∉ fs start)
  /\ fst (identify_from_audio_input quiet clip ua start) = Ret None
  /\ ((clip ++ lit ".wav") ∈ fs (snd (identify_from_audio_input quiet clip ua start))).
Proof.
  split; [vm_compute; reflexivity|].
  split; [apply (bool_decide_unpack _); vm_compute; exact I|].
  split; [vm_compute; reflexivity|].
  apply (bool_decide_unpack _). vm_compute. exact I.
Qed.

(** ** The audio path without a fingerprint *)

(** C5: once the input is converted, an unset fingerprint key or a failing
    fingerprint computation (the library raises, or [int] refuses what the
    library returned) makes the call return absence; it does not raise, and
    it makes no further external call (at most the fingerprint attempt
    itself), so no text search is tried. *)
Theorem no_fingerprint_returns_absent w input ua s wav s1 :
  to_wav w input s = (Ret wav, s1) ->
  truthy (get_env w (lit "ACOUSTID_API_KEY") []) = false
  \/ (exists e, w_fingerprint_file w wav = Raise e)
  \/ (exists first second,
        w_fingerprint_file w wav = Ret (first, second) /\ py_int second = None) ->
  exists s',
    identify_from_audio_input w input ua s = (Ret None, s')
    /\ fs s' = fs s1
    /\ (log s' = log s1 \/ log s' = log s1 ++ [EvFingerprint wav]).
Proof.
  intros Hwav Hno. unfold identify_from_audio_input.
  rewrite (bind_run_ret _ _ _ _ _ Hwav).
  destruct (truthy (get_env w (lit "ACOUSTID_API_KEY") [])) eqn:Hkey.
  - destruct Hno as [Hno | [[e He] | (first & second & Hlib & Hint)]]; [discriminate| |].
    + unfold bind, _chromaprint_fingerprint, try_except, emit. simpl.
      rewrite He. simpl.
      eexists. split; [reflexivity|]. simpl. auto.
    + unfold bind, _chromaprint_fingerprint, try_except, emit. simpl.
      rewrite Hlib, Hint. simpl.
      eexists. split; [reflexivity|]. simpl. auto.
  - exists s1. auto.
Qed.

(** No key configured: the clip is converted and absence is returned. *)
Lemma no_fingerprint_returns_absent_witness :
  exists s',
    identify_from_audio_input quiet clip ua start = (Ret None, s')
    /\ fs s' = fs (snd (to_wav quiet clip start))
    /\ (log s' = log (snd (to_wav quiet clip start))
        \/ log s' = log (snd (to_wav quiet clip start)) ++ [EvFingerprint (clip ++ lit ".wav")]).
Proof.
  apply (no_fingerprint_returns_absent quiet clip ua start (clip ++ lit ".wav")
           (snd (to_wav quiet clip start))).
  - vm_compute. reflexivity.
  - left. vm_compute. reflexivity.
Defined.

(** ** Ranking the fingerprint matches *)

Section SortedFacts.
Context {A : Type} (key : A -> Q).

Lemma insert_desc_perm (x : A) (l : list A) :
  Permutation (insert_desc key x l) (x :: l).
Proof.
  induction l as [|y l IH]; simpl; [reflexivity|].
  destruct (Qle_bool (key y) (key x)); [reflexivity|].
  rewrite IH. apply perm_swap.
Qed.


(** Descending order of the keys. *)
Lemma insert_desc_sorted (x : A) (l : list A) :
  StronglySorted (fun a b => key b <= key a)%Q l ->
  StronglySorted (fun a b => key b <= key a)%Q (insert_desc key x l).
Proof.
  induction 1 as [|y l Hs IH Hall]; simpl.
  - repeat constructor.
  - destruct (Qle_bool (key y) (key x)) eqn:Hyx.
    + apply Qle_bool_iff in Hyx.
      constructor; [constructor; assumption|].
      constructor; [exact Hyx|].
      eapply Forall_impl; [exact Hall|].
      simpl. intros b Hb. eapply Qle_trans; eauto.
    + constructor; [exact IH|].
      assert (Hlt : (key x < key y)%Q).
      { apply Qnot_le_lt. intros Hle. apply Qle_bool_iff in Hle. congruence. }
      rewrite (insert_desc_perm x l).
      constructor; [apply Qlt_le_weak; exact Hlt | exact Hall].
Qed.

Lemma sorted_desc_sorted (l : list A) :
  StronglySorted (fun a b => key b <= key a)%Q (sorted_desc key l).
Proof.
  induction l as [|x l IH]; simpl; [constructor|].
  apply insert_desc_sorted. exact IH.
Qed.

(** Stability: elements whose keys are equal keep their original order. *)
Lemma insert_desc_stable (q : Q) (x : A) (l : list A) :
  StronglySorted (fun a b => key b <= key a)%Q l ->
  List.filter (fun a => Qeq_bool (key a) q) (insert_desc key x l)
  = List.filter (fun a => Qeq_bool (key a) q) (x :: l).
Proof.
  induction 1 as [|y l Hs IH Hall]; [reflexivity|].
  cbn [insert_desc].
  destruct (Qle_bool (key y) (key x)) eqn:Hyx; [reflexivity|].
  assert (Hlt : (key x < key y)%Q).
  { apply Qnot_le_lt. intros Hle. apply Qle_bool_iff in Hle. congruence. }
  cbn [List.filter] in *. rewrite IH.
  destruct (Qeq_bool (key x) q) eqn:Hx; [|reflexivity].
  destruct (Qeq_bool (key y) q) eqn:Hy; [|reflexivity].
  apply Qeq_bool_iff in Hx, Hy. exfalso.
  rewrite Hx, Hy in Hlt. exact (Qlt_irrefl _ Hlt).
Qed.

Lemma sorted_desc_stable (q : Q) (l : list A) :
  List.filter (fun a => Qeq_bool (key a) q) (sorted_desc key l)
  = List.filter (fun a => Qeq_bool (key a) q) l.
Proof.
  induction l as [|x l IH]; [reflexivity|].
  cbn [sorted_desc]. rewrite insert_desc_stable by apply sorted_desc_sorted.
  cbn [List.filter]. rewrite IH. reflexivity.
Qed.

End SortedFacts.

(** ** The fingerprint path *)


Lemma mb_search_recordings_log w q ua limit s :
  log (snd (mb_search_recordings w q ua limit s)) = log s ++ [EvMbSearch q ua limit].
Proof.
  unfold mb_search_recordings, bind, request, emit, raise_for_status. simpl.
  destruct (w_mb_search w q ua limit) as [e | status body]; simpl; [reflexivity|].
  destruct (_ && _); simpl; [reflexivity|].
  destruct body; reflexivity.
Qed.

Lemma bind_log_first {A B} (m : M A) (k : A -> M B) ev (P : event -> Prop) s :
  (forall s0, log (snd (m s0)) = log s0 ++ [ev]) ->
  (forall a, emits P (k a)) ->
  exists l, log (snd (bind m k s)) = log s ++ ev :: l /\ Forall P l.
Proof.
  intros Hm Hk. unfold bind. specialize (Hm s).
  destruct (m s) as [[a|e] s1]; simpl in *.
  - destruct (Hk a s1) as (l & Hl & HP). exists l.
    rewrite Hl, Hm, <- app_assoc. auto.
  - exists []. rewrite Hm. auto.
Qed.



Example ranked_top_is_second :
  match ranked_matches with
  | [a; b; c] => sorted_desc score_key ranked_matches = [b; c; a]
  | _ => False
  end
  /\ exists r s',
       identify_from_matches healthy ranked_matches ua start = (Ret (Some r), s')
       /\ mbid r = Some (lit "rb").
Proof.
  split; [vm_compute; reflexivity|].
  eexists. eexists. split; [vm_compute; reflexivity|]. reflexivity.
Qed.

(** When the conversion succeeds, the key is set and [int] accepts what the
    fingerprinting library returned second, the audio entry point asks the
    fingerprint service and continues with its matches. *)
Lemma identify_from_audio_input_with_fingerprint w input ua s wav s1 first second n :
  to_wav w input s = (Ret wav, s1) ->
  truthy (get_env w (lit "ACOUSTID_API_KEY") []) = true ->
  w_fingerprint_file w wav = Ret (first, second) ->
  py_int second = Some n ->
  identify_from_audio_input w input ua s
  = bind (acoustid_lookup w first n (get_env w (lit "ACOUSTID_API_KEY") []))
         (fun matches => identify_from_matches w matches ua)
         (mkState (fs s1) (log s1 ++ [EvFingerprint wav])).
Proof.
  intros Hwav Hkey Hlib Hint. unfold identify_from_audio_input.
  rewrite (bind_run_ret _ _ _ _ _ Hwav), Hkey.
  unfold bind at 1. unfold _chromaprint_fingerprint, try_except, bind at 1, emit.
  cbn -[lit app]. rewrite Hlib, Hint. reflexivity.
Qed.

(** ** Soft and hard failure of the fingerprint lookup *)

(** C9, as the code has it: an error status (400 to 599) makes the lookup
    raise; any other response with a JSON body is read, and when its
    status field is not "ok", as in a 200 response reporting an error, the
    lookup returns the empty list instead of raising. *)
Theorem acoustid_lookup_soft_and_hard w fp dur key s status body :
  w_acoustid w fp dur key = Resp status body ->
  ((400 <= status < 600)%Z ->
     fst (acoustid_lookup w fp dur key s) = Raise (HTTPError status))
  /\ (forall js,
        ~ (400 <= status < 600)%Z -> body = Some js ->
        (ab_status js <> Some (lit "ok") ->
           fst (acoustid_lookup w fp dur key s) = Ret [])
        /\ (ab_status js = Some (lit "ok") ->
              fst (acoustid_lookup w fp dur key s) = Ret (ab_results js))).
Proof.
  intros Hw.
  unfold acoustid_lookup, bind, request, emit, raise_for_status. simpl.
  rewrite Hw. simpl. split.
  - intros [Hlo Hhi].
    apply Z.leb_le in Hlo. apply Z.ltb_lt in Hhi. rewrite Hlo, Hhi. reflexivity.
  - intros js Hnot ->.
    destruct ((400 <=? status)%Z && (status <? 600)%Z) eqn:Hrange.
    + apply andb_prop in Hrange. destruct Hrange as [Hlo Hhi].
      apply Z.leb_le in Hlo. apply Z.ltb_lt in Hhi. lia.
    + simpl. split; intros Hst.
      * rewrite bool_decide_eq_false_2 by exact Hst. reflexivity.
      * rewrite bool_decide_eq_true_2 by exact Hst. reflexivity.
Qed.

(** A 200 response that reports an error is a soft failure. *)
Lemma acoustid_lookup_soft_and_hard_witness :
  fst (acoustid_lookup acoustid_refuses (lit "AQAA") 30 (lit "key") start) = Ret [].
Proof.
  refine (proj1 (proj2 (acoustid_lookup_soft_and_hard acoustid_refuses (lit "AQAA") 30
                          (lit "key") start 200
                          (Some {| ab_status := Some (lit "error");
                                   ab_results := ranked_matches |}) _)
                  _ _ _) _).
  - vm_compute. reflexivity.
  - lia.
  - reflexivity.
  - discriminate.
Defined.

(** C9 as stated fails: a response whose status is not 200 need not raise;
    with status 203 and a well-formed body the matches are returned. *)
Lemma acoustid_lookup_non_200_returns :
  exists status body,
    w_acoustid proxied (lit "AQAA") 30 (lit "key") = Resp status body
    /\ status <> 200%Z
    /\ fst (acoustid_lookup proxied (lit "AQAA") 30 (lit "key") start) = Ret ranked_matches.
Proof.
  eexists. eexists. split; [reflexivity|]. split; [discriminate|].
  vm_compute. reflexivity.
Qed.

(** ** The artist string *)

Lemma join_nil_head (sep p : str) (ps : list str) :
  join sep (p :: ps) = [] -> p = [].
Proof.
  simpl. destruct ps; [auto|].
  intros H. apply app_eq_nil in H. tauto.
Qed.

(** The joined names are empty exactly when no credit carries a name. *)
Lemma artist_names_nil (credits : list artist_credit) :
  artist_names credits = [] <-> no_names credits.
Proof.
  unfold artist_names, no_names. induction credits as [|a credits IH].
  - split; auto.
  - cbn [omap list_omap].
    destruct (truthy_opt (ac_name a)) eqn:Ha.
    + destruct (ac_name a) as [name|] eqn:Hname; [|discriminate].
      split.
      * intros H. apply join_nil_head in H. subst name. discriminate.
      * intros H. inversion H; subst. congruence.
    + split.
      * intros H. constructor; [exact Ha | apply IH; exact H].
      * intros H. inversion H; subst. apply IH. assumption.
Qed.

(** C10: on the text path through the metadata database a result always
    has a non-empty artist string, and it is the literal "Unknown" when the
    picked recording carries no artist name; on the audio path the artist
    string is the joined names of the looked-up recording as they are, so it
    is empty when that recording carries no artist name. *)
Theorem unknown_artist_default_on_text_path_only :
  (forall w query ua s pick recs s1 r s',
     mb_search_recordings w query ua 5 s = (Ret (pick :: recs), s1) ->
     identify_from_text w query ua s = (Ret (Some r), s') ->
     artists r <> []
     /\ (no_names (rec_artist_credit pick) -> artists r = lit "Unknown")
     /\ (~ no_names (rec_artist_credit pick) ->
         artists r = artist_names (rec_artist_credit pick)))
  /\ (forall w input ua s r s',
        identify_from_audio_input w input ua s = (Ret (Some r), s') ->
        exists id info sa sb,
          mb_lookup_recording w id ua sa = (Ret info, sb)
          /\ artists r = artist_names (rec_artist_credit info)
          /\ (no_names (rec_artist_credit info) -> artists r = [])).
Proof.
  split.
  - intros w query ua s pick recs s1 r s' Hmb Hrun.
    unfold identify_from_text in Hrun.
    rewrite (bind_run_ret _ _ _ _ _ Hmb) in Hrun.
    apply bind_ret_inv in Hrun. destruct Hrun as (cover & sb & _ & Hrun).
    apply bind_ret_inv in Hrun. destruct Hrun as ([[lnk prev] cov] & sc & _ & Hrun).
    apply bind_ret_inv in Hrun. destruct Hrun as (lyr & sd & _ & Hrun).
    inversion Hrun; subst; clear Hrun. simpl.
    destruct (artist_names (rec_artist_credit pick)) as [|c names] eqn:Hnames; simpl.
    + split; [discriminate|]. split; [reflexivity|].
      intros Hno. exfalso. apply Hno. apply artist_names_nil. exact Hnames.
    + split; [discriminate|]. split; [|reflexivity].
      intros Hno. apply artist_names_nil in Hno. congruence.
  - intros w input ua s r s' Hrun.
    unfold identify_from_audio_input in Hrun.
    apply bind_ret_inv in Hrun. destruct Hrun as (wav & s1 & _ & Hrun).
    destruct (truthy (get_env w (lit "ACOUSTID_API_KEY") [])); [|discriminate].
    apply bind_ret_inv in Hrun. destruct Hrun as ([[fp dur]|] & s2 & _ & Hrun);
      [|discriminate].
    apply bind_ret_inv in Hrun. destruct Hrun as (matches & s3 & _ & Hrun).
    unfold identify_from_matches in Hrun.
    destruct matches as [|m0 ms]; [discriminate|].
    destruct (sorted_desc score_key (m0 :: ms)) as [|top rest]; [discriminate|].
    destruct (am_recordings top) as [|rec recs]; [discriminate|].
    apply bind_ret_inv in Hrun. destruct Hrun as (info & sa & Hinfo & Hrun).
    apply bind_ret_inv in Hrun. destruct Hrun as (cover & sb & _ & Hrun).
    apply bind_ret_inv in Hrun. destruct Hrun as ([[lnk prev] cov] & sc & _ & Hrun).
    apply bind_ret_inv in Hrun. destruct Hrun as (lyr & sd & _ & Hrun).
    inversion Hrun; subst; clear Hrun. simpl.
    exists (ar_id rec), info, s3, sa. split; [exact Hinfo|]. split; [reflexivity|].
    apply artist_names_nil.
Qed.

(** The same recording without artist names, searched by text, and matched
    by fingerprint where [int] accepts what the fingerprinting library
    returns. *)
Lemma unknown_artist_default_on_text_path_only_witness :
  (exists r s',
     identify_from_text anonymous_world (lit "untitled") ua start = (Ret (Some r), s')
     /\ artists r = lit "Unknown")
  /\ (exists r s',
        identify_from_audio_input anonymous_decimal clip ua start = (Ret (Some r), s')
        /\ artists r = []).
Proof.
  split.
  - eexists. eexists. split; [vm_compute; reflexivity|].
    refine (proj1 (proj2 (proj1 unknown_artist_default_on_text_path_only
                            anonymous_world (lit "untitled") ua start anonymous []
                            _ _ _ _ _)) _).
    + vm_compute. reflexivity.
    + vm_compute. reflexivity.
    + repeat constructor.
  - eexists. eexists. split; [vm_compute; reflexivity|].
    destruct (proj2 unknown_artist_default_on_text_path_only
                anonymous_decimal clip ua start _ _ eq_refl)
      as (id & info & sa & sb & Hinfo & Hart & Hnone).
    apply Hnone.
    vm_compute in Hinfo. inversion Hinfo. repeat constructor.
Defined.

(** ** The text path *)

(** The metadata search, by what the service does. *)
Lemma mb_search_recordings_run w q ua limit s :
  mb_search_recordings w q ua limit s
  = let s1 := mkState (fs s) (log s ++ [EvMbSearch q ua limit]) in
    match w_mb_search w q ua limit with
    | NetErr e => (Raise e, s1)
    | Resp status body =>
        if ((400 <=? status) && (status <? 600))%Z then (Raise (HTTPError status), s1)
        else match body with
             | Some recordings => (Ret recordings, s1)
             | None => (Raise JSONDecodeError, s1)
             end
    end.
Proof.
  unfold mb_search_recordings, bind, request, emit, raise_for_status. cbn -[lit app].
  destruct (w_mb_search w q ua limit) as [e | status body]; cbn -[lit app]; [reflexivity|].
  destruct (_ && _); cbn -[lit app]; [reflexivity|].
  destruct body; reflexivity.
Qed.

(** The token, by the configuration and by what the token endpoint does. *)
Lemma _spotify_token_run w s :
  _spotify_token w s
  = let cid := get_env w (lit "SPOTIFY_CLIENT_ID") [] in
    let sec := get_env w (lit "SPOTIFY_CLIENT_SECRET") [] in
    if negb (truthy cid) || negb (truthy sec) then (Ret None, s)
    else
      let s1 := mkState (fs s) (log s ++ [EvSpotifyToken cid sec]) in
      match w_spotify_token w cid sec with
      | NetErr e => (Raise e, s1)
      | Resp status body =>
          if (status =? 200)%Z
          then match body with
               | Some token => (Ret token, s1)
               | None => (Raise JSONDecodeError, s1)
               end
          else (Ret None, s1)
      end.
Proof.
  unfold _spotify_token, spotify_client_credentials_token. cbv zeta.
  destruct (negb _ || negb _); [reflexivity|].
  unfold bind, request, emit. cbn -[lit app].
  destruct (w_spotify_token w _ _) as [e | status body]; cbn -[lit app]; [reflexivity|].
  destruct (status =? 200)%Z; cbn -[lit app]; [|reflexivity].
  destruct body; reflexivity.
Qed.

(** The catalog search, by what the service does. *)
Lemma spotify_search_track_run w q tok limit s :
  spotify_search_track w q tok limit s
  = let s1 := mkState (fs s) (log s ++ [EvSpotifySearch q tok limit]) in
    match w_spotify_search w q tok limit with
    | NetErr e => (Raise e, s1)
    | Resp status body =>
        if ((400 <=? status) && (status <? 600))%Z then (Raise (HTTPError status), s1)
        else match body with
             | Some items => (Ret items, s1)
             | None => (Raise JSONDecodeError, s1)
             end
    end.
Proof.
  unfold spotify_search_track, bind, request, emit, raise_for_status. cbn -[lit app].
  destruct (w_spotify_search w q tok limit) as [e | status body]; cbn -[lit app];
    [reflexivity|].
  destruct (_ && _); cbn -[lit app]; [reflexivity|].
  destruct body; reflexivity.
Qed.

(** C6: the first external call of a text identification is the metadata
    search, and every later call is an enrichment call.  When the metadata
    service cannot be reached or answers with an error status, the call
    ends with that error after this one request.  When it answers with a
    non-empty list, the result carries the first recording's identifier and
    title, and absence is not returned.  When it answers with an empty
    list, the commercial catalog is asked: without both credentials, with a
    token endpoint that does not answer 200, or with an empty token, the
    call returns absence; with a token, the catalog is searched for the
    query with limit 1, an empty answer gives absence, and otherwise the
    first hit is mapped to a result without identifier. *)
Theorem text_search_order w query ua s :
  (exists l,
     log (snd (identify_from_text w query ua s)) = log s ++ EvMbSearch query ua 5 :: l
     /\ Forall is_enrichment l)
  /\ (forall e,
        w_mb_search w query ua 5 = NetErr e ->
        identify_from_text w query ua s = (Raise e, after s [EvMbSearch query ua 5]))
  /\ (forall status body,
        w_mb_search w query ua 5 = Resp status body ->
        (400 <= status < 600)%Z ->
        identify_from_text w query ua s
        = (Raise (HTTPError status), after s [EvMbSearch query ua 5]))
  /\ (forall status pick recs,
        w_mb_search w query ua 5 = Resp status (Some (pick :: recs)) ->
        (status < 400 \/ 600 <= status)%Z ->
        (forall s', identify_from_text w query ua s <> (Ret None, s'))
        /\ (forall r s',
              identify_from_text w query ua s = (Ret (Some r), s') ->
              mbid r = rec_id pick /\ title r = rec_title pick))
  /\ (forall status,
        w_mb_search w query ua 5 = Resp status (Some []) ->
        (status < 400 \/ 600 <= status)%Z ->
        let cid := get_env w (lit "SPOTIFY_CLIENT_ID") [] in
        let sec := get_env w (lit "SPOTIFY_CLIENT_SECRET") [] in
        (truthy cid = false \/ truthy sec = false ->
         identify_from_text w query ua s = (Ret None, after s [EvMbSearch query ua 5]))
        /\ (truthy cid = true -> truthy sec = true ->
            forall tstatus tbody,
              w_spotify_token w cid sec = Resp tstatus tbody ->
              (tstatus <> 200%Z
               \/ (exists tok, tbody = Some tok /\ truthy_opt tok = false) ->
               identify_from_text w query ua s
               = (Ret None, after s [EvMbSearch query ua 5; EvSpotifyToken cid sec]))
              /\ (forall t sstatus items,
                    tstatus = 200%Z -> tbody = Some (Some t) -> truthy t = true ->
                    w_spotify_search w query t 1 = Resp sstatus (Some items) ->
                    (sstatus < 400 \/ 600 <= sstatus)%Z ->
                    match items with
                    | [] =>
                        identify_from_text w query ua s
                        = (Ret None,
                           after s [EvMbSearch query ua 5; EvSpotifyToken cid sec;
                                    EvSpotifySearch query t 1])
                    | item :: _ =>
                        exists lyr s4,
                          identify_from_text w query ua s
                          = (Ret (Some {| title := Some (or_str (si_name item) query);
                                          artists := artist_names (si_artists item);
                                          cover_url := match si_album_images item with
                                                       | img :: _ => img_url img
                                                       | [] => None
                                                       end;
                                          mbid := None;
                                          spotify_link := si_external_url item;
                                          spotify_preview := si_preview_url item;
                                          lyrics_excerpt := lyr |}), s4)
                    end))).
Proof.
  assert (Hpass : forall status, (status < 400 \/ 600 <= status)%Z ->
            ((400 <=? status) && (status <? 600))%Z = false).
  { intros status H. apply andb_false_iff. rewrite Z.leb_gt, Z.ltb_ge. lia. }
  split; [|split; [|split; [|split]]].
  - unfold identify_from_text.
    apply bind_log_first; [apply mb_search_recordings_log|].
    intros recordings.
    pose proof (emits_cover_of_releases w). pose proof (emits_enrich w).
    pose proof (emits_lyrics w). pose proof (emits_spotify_token w).
    pose proof (emits_spotify_search w). frame.
  - intros e Hmb. unfold identify_from_text.
    apply bind_run_raise. rewrite mb_search_recordings_run, Hmb. reflexivity.
  - intros status body Hmb Herr. unfold identify_from_text.
    apply bind_run_raise. rewrite mb_search_recordings_run, Hmb. cbv zeta.
    replace ((400 <=? status)%Z && (status <? 600)%Z) with true; [reflexivity|].
    symmetry. apply andb_true_iff. rewrite Z.leb_le, Z.ltb_lt. lia.
  - intros status pick recs Hmb Hstatus.
    assert (Hrun : mb_search_recordings w query ua 5 s
                   = (Ret (pick :: recs), after s [EvMbSearch query ua 5])).
    { rewrite mb_search_recordings_run, Hmb. cbv zeta. rewrite (Hpass _ Hstatus).
      reflexivity. }
    unfold identify_from_text.
    rewrite (bind_run_ret _ _ _ _ _ Hrun). split.
    + intros s' Hres.
      apply bind_ret_inv in Hres. destruct Hres as (cover & sb & _ & Hres).
      apply bind_ret_inv in Hres. destruct Hres as ([[lnk prev] cov] & sc & _ & Hres).
      apply bind_ret_inv in Hres. destruct Hres as (lyr & sd & _ & Hres).
      inversion Hres.
    + intros r s' Hres.
      apply bind_ret_inv in Hres. destruct Hres as (cover & sb & _ & Hres).
      apply bind_ret_inv in Hres. destruct Hres as ([[lnk prev] cov] & sc & _ & Hres).
      apply bind_ret_inv in Hres. destruct Hres as (lyr & sd & _ & Hres).
      inversion Hres. split; reflexivity.
  - intros status Hmb Hstatus cid sec.
    assert (Hrun : mb_search_recordings w query ua 5 s
                   = (Ret [], after s [EvMbSearch query ua 5])).
    { rewrite mb_search_recordings_run, Hmb. cbv zeta. rewrite (Hpass _ Hstatus).
      reflexivity. }
    unfold identify_from_text.
    rewrite (bind_run_ret _ _ _ _ _ Hrun).
    split.
    + intros Hcred.
      assert (Htok : _spotify_token w (after s [EvMbSearch query ua 5])
                     = (Ret None, after s [EvMbSearch query ua 5])).
      { rewrite _spotify_token_run. cbv zeta. fold cid sec.
        destruct Hcred as [-> | ->]; [reflexivity|].
        rewrite orb_true_r. reflexivity. }
      rewrite (bind_run_ret _ _ _ _ _ Htok). reflexivity.
    + intros Hcid Hsec tstatus tbody Htoken.
      assert (Htok : _spotify_token w (after s [EvMbSearch query ua 5])
                     = let s1 := after s [EvMbSearch query ua 5; EvSpotifyToken cid sec] in
                       if (tstatus =? 200)%Z
                       then match tbody with
                            | Some token => (Ret token, s1)
                            | None => (Raise JSONDecodeError, s1)
                            end
                       else (Ret None, s1)).
      { rewrite _spotify_token_run. cbv zeta. fold cid sec.
        rewrite Hcid, Hsec, Htoken. unfold after. cbn [fs log negb orb].
        rewrite <- app_assoc. reflexivity. }
      cbv zeta in Htok.
      split.
      * intros [Hno | (tok & -> & Hfalsy)].
        -- apply Z.eqb_neq in Hno. rewrite Hno in Htok.
           rewrite (bind_run_ret _ _ _ _ _ Htok). reflexivity.
        -- destruct (tstatus =? 200)%Z;
             rewrite (bind_run_ret _ _ _ _ _ Htok); [|reflexivity].
           destruct tok as [t|]; [|reflexivity].
           simpl in Hfalsy. rewrite Hfalsy. reflexivity.
      * intros t sstatus items -> -> Ht Hsearch Hsstatus.
        rewrite Z.eqb_refl in Htok.
        rewrite (bind_run_ret _ _ _ _ _ Htok), Ht.
        assert (Hitems : spotify_search_track w query t 1
                           (after s [EvMbSearch query ua 5; EvSpotifyToken cid sec])
                         = (Ret items,
                            after s [EvMbSearch query ua 5; EvSpotifyToken cid sec;
                                     EvSpotifySearch query t 1])).
        { rewrite spotify_search_track_run, Hsearch. cbv zeta.
          rewrite (Hpass _ Hsstatus). unfold after. cbn [fs log].
          rewrite <- app_assoc. reflexivity. }
        rewrite (bind_run_ret _ _ _ _ _ Hitems).
        destruct items as [|item items]; [reflexivity|].
        unfold bind.
        destruct (total_lyrics w
                    (first_artist (sp_artists (spotify_track_link_and_preview item)))
                    (or_str (sp_title (spotify_track_link_and_preview item)) query)
                    (after s [EvMbSearch query ua 5; EvSpotifyToken cid sec;
                              EvSpotifySearch query t 1]))
          as (lyr & Hlyr).
        destruct (lyrics_best_effort w _ _ _) as [res s4]. simpl in Hlyr. subst res.
        exists lyr, s4. reflexivity.
Qed.

(** The song is in the metadata database: the result is its first
    recording.  Nothing in the metadata database, one hit in the commercial
    catalog: the result is that hit, without identifier. *)
Lemma text_search_order_witness :
  (exists r s',
     identify_from_text healthy (lit "yellow") ua start = (Ret (Some r), s')
     /\ mbid r = Some (lit "r1") /\ title r = Some (lit "Yellow"))
  /\ (exists lyr s4,
        identify_from_text only_spotify (lit "yellow") ua start
        = (Ret (Some {| title := Some (lit "Yellow");
                        artists := lit "Coldplay";
                        cover_url := Some (lit "https://i.scdn.co/1");
                        mbid := None;
                        spotify_link := Some (lit "https://open.spotify.com/track/1");
                        spotify_preview := Some (lit "https://p.scdn.co/1");
                        lyrics_excerpt := lyr |}), s4)).
Proof.
  split.
  - destruct (text_search_order healthy (lit "yellow") ua start)
      as (_ & _ & _ & Hfound & _).
    eexists. eexists. split; [vm_compute; reflexivity|].
    refine (proj2 (Hfound 200%Z yellow [] eq_refl ltac:(lia)) _ _ _).
    vm_compute. reflexivity.
  - destruct (text_search_order only_spotify (lit "yellow") ua start)
      as (_ & _ & _ & _ & Hempty).
    destruct (Hempty 200%Z eq_refl ltac:(lia)) as [_ Hcred].
    destruct (Hcred eq_refl eq_refl 200%Z (Some (Some (lit "tok"))) eq_refl) as [_ Hhit].
    exact (Hhit (lit "tok") 200%Z [yellow_item] eq_refl eq_refl eq_refl eq_refl ltac:(lia)).
Defined.

(** In the healthy world the text search returns the recording of the
    metadata database, and the catalog is asked for the enrichment only. *)
Example healthy_text_search_uses_the_metadata_database :
  exists r s',
    identify_from_text healthy (lit "yellow") ua start = (Ret (Some r), s')
    /\ mbid r = Some (lit "r1")
    /\ log s' = [EvMbSearch (lit "yellow") ua 5;
                 EvCoverArt (lit "https://coverartarchive.org/release/rel1/front");
                 EvSpotifyToken (lit "cid") (lit "sec");
                 EvSpotifySearch (lit "Yellow Coldplay") (lit "tok") 1;
                 EvLyrics (lit "https://api.lyrics.ovh/v1/Coldplay/Yellow")].
Proof.
  eexists. eexists. split; [vm_compute; reflexivity|]. split; reflexivity.
Qed.





(** ** Failures during enrichment *)

(** A failing cover probe leaves the cover to the commercial catalog and
    everything else as it is. *)
Example cover_failure_is_isolated :
  exists r0 r s0 s',
    identify_from_text healthy (lit "yellow") ua start = (Ret (Some r0), s0)
    /\ identify_from_text cover_down (lit "yellow") ua start = (Ret (Some r), s')
    /\ cover_url r0 = Some (lit "https://coverartarchive.org/release/rel1/front")
    /\ cover_url r = Some (lit "https://i.scdn.co/1")
    /\ (title r, artists r, mbid r) = (title r0, artists r0, mbid r0)
    /\ (spotify_link r, spotify_preview r) = (spotify_link r0, spotify_preview r0)
    /\ lyrics_excerpt r = lyrics_excerpt r0
    /\ lyrics_excerpt r0 <> None /\ spotify_link r0 <> None.
Proof.
  do 4 eexists.
  split; [vm_compute; reflexivity|]. split; [vm_compute; reflexivity|].
  repeat split; discriminate.
Qed.

(** A failing lyrics fetch leaves the excerpt absent and everything else as
    it is. *)
Example lyrics_failure_is_isolated :
  exists r0 r s0 s',
    identify_from_text healthy (lit "yellow") ua start = (Ret (Some r0), s0)
    /\ identify_from_text lyrics_down (lit "yellow") ua start = (Ret (Some r), s')
    /\ lyrics_excerpt r = None
    /\ (title r, artists r, mbid r, cover_url r) = (title r0, artists r0, mbid r0, cover_url r0)
    /\ (spotify_link r, spotify_preview r) = (spotify_link r0, spotify_preview r0).
Proof.
  do 4 eexists.
  split; [vm_compute; reflexivity|]. split; [vm_compute; reflexivity|].
  repeat split.
Qed.

(** A refused token exchange switches the commercial enrichment off and
    leaves everything else as it is. *)
Example token_refusal_is_isolated :
  exists r0 r s0 s',
    identify_from_text healthy (lit "yellow") ua start = (Ret (Some r0), s0)
    /\ identify_from_text token_refused (lit "yellow") ua start = (Ret (Some r), s')
    /\ (spotify_link r, spotify_preview r) = (None, None)
    /\ (title r, artists r, mbid r, cover_url r) = (title r0, artists r0, mbid r0, cover_url r0)
    /\ lyrics_excerpt r = lyrics_excerpt r0.
Proof.
  do 4 eexists.
  split; [vm_compute; reflexivity|]. split; [vm_compute; reflexivity|].
  repeat split.
Qed.

(** C1 for the commercial catalog: with the token obtained, an error status
    of the catalog's search is raised out of the enrichment step, whatever
    the candidate, and out of the text entry point, although the candidate
    is resolved and the cover probe and the lyrics fetch would succeed. *)
Theorem spotify_search_failure_aborts_identification :
  fst (identify_from_text spotify_down (lit "yellow") ua start) = Raise (HTTPError 503)
  /\ (forall t a cover s,
        fst (_enrich_spotify_and_cover spotify_down t a cover s) = Raise (HTTPError 503))
  /\ (exists r s', identify_from_text healthy (lit "yellow") ua start = (Ret (Some r), s')).
Proof.
  split; [vm_compute; reflexivity|]. split; [intros; reflexivity|].
  eexists; eexists; vm_compute; reflexivity.
Qed.

(** * Further properties of the code *)

(** ** Stripping *)

Lemma lstrip_spaces (ws s : str) :
  Forall (fun c => is_space c = true) ws -> lstrip (ws ++ s) = lstrip s.
Proof.
  induction 1 as [|c ws Hc _ IH]; [reflexivity|].
  simpl. rewrite Hc. exact IH.
Qed.

Lemma lstrip_head (s : str) c r : lstrip s = c :: r -> is_space c = false.
Proof.
  induction s as [|a s IH]; [discriminate|].
  simpl. destruct (is_space a) eqn:Ha; [exact IH|].
  intros H. inversion H; subst. exact Ha.
Qed.

Lemma lstrip_app_keep (s u : str) c r :
  lstrip s = c :: r -> lstrip (s ++ u) = c :: r ++ u.
Proof.
  induction s as [|a s IH]; [discriminate|].
  simpl. destruct (is_space a); [exact IH|].
  intros H. inversion H; subst. reflexivity.
Qed.

Lemma lstrip_snoc (s : str) c :
  is_space c = false -> lstrip (s ++ [c]) = lstrip s ++ [c].
Proof.
  intros Hc. induction s as [|a s IH]; simpl.
  - rewrite Hc. reflexivity.
  - destruct (is_space a); [exact IH | reflexivity].
Qed.

Lemma rstrip_spaces (s ws : str) :
  Forall (fun c => is_space c = true) ws -> rstrip (s ++ ws) = rstrip s.
Proof.
  intros Hws. unfold rstrip. rewrite rev_app_distr, lstrip_spaces; [reflexivity|].
  apply Forall_rev. exact Hws.
Qed.

Lemma rstrip_cons (c : N) (s : str) :
  is_space c = false -> rstrip (c :: s) = c :: rstrip s.
Proof.
  intros Hc. unfold rstrip. simpl.
  rewrite lstrip_snoc by exact Hc.
  rewrite rev_app_distr. reflexivity.
Qed.

Lemma strip_cons (c : N) (s : str) :
  is_space c = false -> strip (c :: s) = c :: rstrip s.
Proof.
  intros Hc. unfold strip. simpl. rewrite Hc. apply rstrip_cons. exact Hc.
Qed.

Lemma lstrip_all_spaces (ws : str) :
  Forall (fun c => is_space c = true) ws -> lstrip ws = [].
Proof.
  intros H. rewrite <- (app_nil_r ws), lstrip_spaces by exact H. reflexivity.
Qed.

(** Surrounding whitespace does not change what [strip] returns. *)
Lemma strip_surrounded (ws1 t ws2 : str) :
  Forall (fun c => is_space c = true) ws1 ->
  Forall (fun c => is_space c = true) ws2 ->
  strip (ws1 ++ t ++ ws2) = strip t.
Proof.
  intros H1 H2. unfold strip. rewrite lstrip_spaces by exact H1.
  destruct (lstrip t) as [|c r] eqn:Ht.
  - assert (lstrip (t ++ ws2) = []) as ->; [|reflexivity].
    clear H1. induction t as [|a t IH]; simpl in *.
    + apply lstrip_all_spaces. exact H2.
    + destruct (is_space a); [auto | discriminate].
  - rewrite (lstrip_app_keep _ ws2 _ _ Ht).
    change (c :: r ++ ws2) with ((c :: r) ++ ws2).
    apply rstrip_spaces. exact H2.
Qed.

(** The characters of a stripped text are characters of the text. *)
Lemma lstrip_incl (s : str) c : In c (lstrip s) -> In c s.
Proof.
  induction s as [|a s IH]; simpl; [auto|].
  destruct (is_space a); [auto|]. simpl. auto.
Qed.

Lemma strip_incl (s : str) c : In c (strip s) -> In c s.
Proof.
  unfold strip, rstrip. intros H.
  apply lstrip_incl. apply in_rev. apply lstrip_incl. apply in_rev in H. exact H.
Qed.

(** ** Recognising links *)

(** X1: [is_url] looks at the stripped text only, so whitespace before and
    after a text never changes whether it is taken for a link. *)
Theorem is_url_ignores_surrounding_whitespace (ws1 t ws2 : str) :
  Forall (fun c => is_space c = true) ws1 ->
  Forall (fun c => is_space c = true) ws2 ->
  is_url (ws1 ++ t ++ ws2) = is_url t.
Proof.
  intros H1 H2. unfold is_url. rewrite strip_surrounded by assumption. reflexivity.
Qed.

Lemma is_url_ignores_surrounding_whitespace_witness :
  is_url ([32%N; 9%N] ++ lit "https://x" ++ [10%N]) = is_url (lit "https://x").
Proof.
  apply (is_url_ignores_surrounding_whitespace [32%N; 9%N] (lit "https://x") [10%N]);
    repeat constructor.
Defined.

(** X2: a text that begins with http:// or https://, its letters in either
    case, is a link, whatever follows. *)
Theorem is_url_accepts_http_and_https (h t1 t2 p s : N) (rest : str) :
  h = 0x68%N \/ h = 0x48%N ->
  t1 = 0x74%N \/ t1 = 0x54%N ->
  t2 = 0x74%N \/ t2 = 0x54%N ->
  p = 0x70%N \/ p = 0x50%N ->
  s = 0x73%N \/ s = 0x53%N ->
  is_url (h :: t1 :: t2 :: p :: lit "://" ++ rest) = true
  /\ is_url (h :: t1 :: t2 :: p :: s :: lit "://" ++ rest) = true.
Proof.
  intros [-> | ->] [-> | ->] [-> | ->] [-> | ->] [-> | ->];
    (split; unfold is_url; cbn [lit list_ascii_of_string map app];
     rewrite strip_cons by reflexivity;
     rewrite !rstrip_cons by reflexivity;
     reflexivity).
Qed.

Lemma is_url_accepts_http_and_https_witness :
  is_url (lit "Http://example.org/a b") = true
  /\ is_url (lit "HttpS://example.org/a b") = true.
Proof.
  apply (is_url_accepts_http_and_https 0x48 0x74 0x74 0x70 0x53 (lit "example.org/a b"));
    auto.
Defined.

(** X3: a text whose first character is not whitespace and not the letter
    h in either case is not a link, and the audio entry point converts it as
    a local file. *)
Theorem non_link_is_converted_as_file (w : world) (c : N) (rest : str) :
  is_space c = false ->
  c <> 0x68%N -> c <> 0x48%N ->
  is_url (c :: rest) = false
  /\ to_wav w (c :: rest) = extract_audio_from_file w (c :: rest) None.
Proof.
  intros Hc Hh HH.
  assert (Hurl : is_url (c :: rest) = false).
  { unfold is_url. rewrite strip_cons by exact Hc.
    destruct (rstrip rest) as [|a [|b [|d r]]]; try reflexivity.
    unfold ci_match.
    apply N.eqb_neq in Hh. apply N.eqb_neq in HH. rewrite Hh, HH. reflexivity. }
  split; [exact Hurl|].
  unfold to_wav. rewrite Hurl. reflexivity.
Qed.

Lemma non_link_is_converted_as_file_witness :
  is_url clip = false
  /\ to_wav quiet clip = extract_audio_from_file quiet clip None.
Proof.
  apply (non_link_is_converted_as_file quiet 0x2F (lit "data/clip.mp3"));
    [reflexivity | discriminate | discriminate].
Defined.

(** ** Size of the lyrics excerpt *)

Lemma length_lstrip (s : str) : length (lstrip s) <= length s.
Proof.
  induction s as [|a s IH]; simpl; [lia|].
  destruct (is_space a); simpl; lia.
Qed.

Lemma length_strip (s : str) : length (strip s) <= length s.
Proof.
  unfold strip, rstrip. rewrite length_rev.
  etransitivity; [apply length_lstrip|]. rewrite length_rev. apply length_lstrip.
Qed.

Lemma kept_app (a b : list str) : kept (a ++ b) = kept a ++ kept b.
Proof. unfold kept. rewrite map_app, List.filter_app. reflexivity. Qed.

Lemma total_len_kept_take (k : nat) (lines : list str) :
  total_len (kept (take k lines)) <= total_len (kept lines).
Proof.
  rewrite <- (take_drop k lines) at 2. rewrite kept_app, total_len_app. lia.
Qed.

Lemma kept_short (L : nat) (lines : list str) :
  Forall (fun l => length l <= L) lines ->
  Forall (fun l => length l <= L) (kept lines).
Proof.
  intros H. unfold kept. apply List.Forall_forall. intros l Hin.
  apply filter_In in Hin. destruct Hin as [Hin _].
  apply in_map_iff in Hin. destruct Hin as (x & <- & Hx).
  rewrite List.Forall_forall in H. specialize (H x Hx).
  pose proof (length_strip x). lia.
Qed.

Lemma length_join (sep : str) (parts : list str) :
  length (join sep parts) = total_len parts + length sep * (length parts - 1).
Proof.
  induction parts as [|p [|q parts] IH].
  - unfold total_len. simpl. lia.
  - unfold total_len. simpl. lia.
  - change (join sep (p :: q :: parts)) with (p ++ sep ++ join sep (q :: parts)).
    rewrite !length_app, IH. unfold total_len. simpl. lia.
Qed.

Lemma nonblank_count (l : list str) :
  Forall (fun x => x <> []) l -> length l <= total_len l.
Proof.
  induction 1 as [|x l Hx _ IH]; [reflexivity|].
  unfold total_len in *. simpl. destruct x; [congruence|]. simpl. lia.
Qed.

Lemma removelast_snoc (l : list str) :
  l <> [] -> exists pre x, l = pre ++ [x] /\ removelast l = pre.
Proof.
  intros Hl. destruct (exists_last Hl) as (pre & x & ->).
  exists pre, x. split; [reflexivity|]. apply removelast_last.
Qed.

(** X4: lyrics whose non-blank lines, stripped, total at most 500
    characters are kept complete: the excerpt holds every one of them. *)
Theorem short_lyrics_are_kept_complete (txt : str) :
  total_len (kept (splitlines (strip txt))) <= 500 ->
  excerpt_lines txt = kept (splitlines (strip txt))
  /\ excerpt_of txt = join [10%N] (kept (splitlines (strip txt))).
Proof.
  intros Hshort. unfold excerpt_of, excerpt_lines.
  destruct (excerpt_loop_spec (splitlines (strip txt)) []) as (k & Hk & Heq & _ & Hstop).
  { unfold total_len. simpl. lia. }
  simpl in Heq. rewrite Heq in *.
  assert (k = length (splitlines (strip txt))) as ->.
  { destruct Hstop as [-> | Hover]; [reflexivity|].
    pose proof (total_len_kept_take k (splitlines (strip txt))). lia. }
  rewrite firstn_all. split; reflexivity.
Qed.

Lemma short_lyrics_are_kept_complete_witness :
  excerpt_lines yellow_lyrics = kept (splitlines (strip yellow_lyrics))
  /\ excerpt_of yellow_lyrics = join [10%N] (kept (splitlines (strip yellow_lyrics))).
Proof.
  apply (short_lyrics_are_kept_complete yellow_lyrics).
  vm_compute. lia.
Defined.

(** X5: when no line of the lyrics is longer than [L], the kept lines total
    at most 500 + [L] characters and the excerpt, with its newlines, is at
    most 1000 + [L] characters long. *)
Theorem excerpt_size_bound (L : nat) (txt : str) :
  Forall (fun l => length l <= L) (splitlines (strip txt)) ->
  total_len (excerpt_lines txt) <= 500 + L
  /\ length (excerpt_of txt) <= 1000 + L.
Proof.
  intros Hlines. unfold excerpt_of, excerpt_lines.
  destruct (excerpt_loop_spec (splitlines (strip txt)) []) as (k & Hk & Heq & Hpre & _).
  { unfold total_len. simpl. lia. }
  simpl in Heq. rewrite Heq in *.
  set (out := kept (take k (splitlines (strip txt)))) in *.
  assert (Hshort : Forall (fun l => length l <= L) out).
  { apply kept_short. apply Forall_take. exact Hlines. }
  assert (Hnb : Forall (fun l => l <> []) out) by apply kept_nonblank.
  rewrite length_join. change (length [10%N]) with 1.
  destruct out as [|o out'] eqn:Hout.
  - unfold total_len. simpl. lia.
  - destruct (removelast_snoc (o :: out')) as (pre & x & Hsplit & Hrm); [discriminate|].
    rewrite Hrm in Hpre. rewrite Hsplit in *.
    apply Forall_app in Hshort. destruct Hshort as [_ Hx].
    inversion Hx; subst.
    apply Forall_app in Hnb. destruct Hnb as [Hnbpre _].
    pose proof (nonblank_count pre Hnbpre).
    rewrite total_len_app, length_app. unfold total_len at 2 4. simpl. lia.
Qed.

Lemma excerpt_size_bound_witness :
  total_len (excerpt_lines one_long_line) <= 500 + 501
  /\ length (excerpt_of one_long_line) <= 1000 + 501.
Proof.
  apply (excerpt_size_bound 501 one_long_line).
  vm_compute. repeat constructor.
Defined.

(** ** The lyrics fetch and the cover probe as services *)

(** X6: [lyrics_best_effort] never raises and never touches the file
    system; with an empty artist or title it returns absence without
    contacting the service, otherwise it makes exactly one request, to the
    address built from artist and title. *)
Theorem lyrics_best_effort_contact w artist ttl s :
  exists res,
    fst (lyrics_best_effort w artist ttl s) = Ret res
    /\ fs (snd (lyrics_best_effort w artist ttl s)) = fs s
    /\ (artist = [] \/ ttl = [] ->
        res = None /\ snd (lyrics_best_effort w artist ttl s) = s)
    /\ (artist <> [] -> ttl <> [] ->
        log (snd (lyrics_best_effort w artist ttl s))
        = log s ++ [EvLyrics (lit "https://api.lyrics.ovh/v1/" ++ artist ++ lit "/" ++ ttl)]).
Proof.
  unfold lyrics_best_effort.
  destruct artist as [|a artist]; [|destruct ttl as [|t ttl]].
  - exists None. simpl.
    split; [reflexivity|]. split; [reflexivity|]. split; [auto | congruence].
  - exists None. simpl.
    split; [reflexivity|]. split; [reflexivity|]. split; [auto | congruence].
  - cbn [truthy negb orb].
    assert (Hno : forall (P : Prop), (a :: artist = [] \/ t :: ttl = [] -> P)).
    { intros P [Hnil | Hnil]; discriminate. }
    set (url := lit "https://api.lyrics.ovh/v1/" ++ (a :: artist) ++ lit "/" ++ t :: ttl).
    assert (Hfin : forall res : option str,
               exists res0,
                 Ret res = Ret res0
                 /\ fs s = fs s
                 /\ (a :: artist = [] \/ t :: ttl = [] ->
                     res0 = None /\ mkState (fs s) (log s ++ [EvLyrics url]) = s)
                 /\ (a :: artist <> [] -> t :: ttl <> [] ->
                     log s ++ [EvLyrics url] = log s ++ [EvLyrics url])).
    { intros res. exists res. split; [reflexivity|]. split; [reflexivity|].
      split; [apply Hno | reflexivity]. }
    unfold try_except, bind, request, emit, json. cbn -[lit app].
    destruct (w_lyrics w url) as [e | status body]; cbn -[lit app].
    + apply Hfin.
    + destruct (status =? 200)%Z; cbn -[lit app].
      * destruct body as [[txt|]|]; cbn -[lit app].
        -- destruct (truthy txt); cbn -[lit app]; apply Hfin.
        -- apply Hfin.
        -- apply Hfin.
      * apply Hfin.
Qed.

(** X7: lyrics that consist of whitespace only give an excerpt that is
    present and empty, not absence. *)
Theorem blank_lyrics_give_empty_excerpt w artist ttl s txt :
  artist <> [] -> ttl <> [] ->
  w_lyrics w (lit "https://api.lyrics.ovh/v1/" ++ artist ++ lit "/" ++ ttl)
    = Resp 200 (Some (Some txt)) ->
  txt <> [] ->
  Forall (fun c => is_space c = true) txt ->
  fst (lyrics_best_effort w artist ttl s) = Ret (Some []).
Proof.
  intros Ha Ht Hw Htxt Hblank. unfold lyrics_best_effort.
  destruct artist as [|a artist]; [congruence|].
  destruct ttl as [|t ttl]; [congruence|].
  cbn [truthy negb orb].
  unfold try_except, bind, request, emit, json. cbn -[lit app].
  rewrite Hw. cbn -[lit app excerpt_of].
  destruct txt as [|c txt]; [congruence|]. cbn -[lit app excerpt_of].
  unfold excerpt_of, excerpt_lines, strip.
  rewrite (lstrip_all_spaces _ Hblank). reflexivity.
Qed.

Lemma blank_lyrics_give_empty_excerpt_witness :
  fst (lyrics_best_effort blank_lyrics (lit "Coldplay") (lit "Yellow") start) = Ret (Some []).
Proof.
  apply (blank_lyrics_give_empty_excerpt blank_lyrics (lit "Coldplay") (lit "Yellow") start
           [32%N; 10%N; 9%N; 32%N]).
  - discriminate.
  - discriminate.
  - reflexivity.
  - discriminate.
  - repeat constructor.
Defined.

(** X8: [cover_art_from_release] never raises and makes exactly one probe;
    it returns the probed address when the probe answered 200 and absence
    in every other case, so a returned cover address has been seen to
    exist. *)
Theorem cover_art_only_when_probe_succeeds w rid s :
  exists res,
    fst (cover_art_from_release w rid s) = Ret res
    /\ log (snd (cover_art_from_release w rid s))
       = log s ++ [EvCoverArt (lit "https://coverartarchive.org/release/" ++ rid ++ lit "/front")]
    /\ ((res = Some (lit "https://coverartarchive.org/release/" ++ rid ++ lit "/front")
         /\ exists body,
              w_cover_art w (lit "https://coverartarchive.org/release/" ++ rid ++ lit "/front")
              = Resp 200 body)
        \/ (res = None
            /\ forall body,
                 w_cover_art w (lit "https://coverartarchive.org/release/" ++ rid ++ lit "/front")
                 <> Resp 200 body)).
Proof.
  set (url := lit "https://coverartarchive.org/release/" ++ rid ++ lit "/front").
  unfold cover_art_from_release, try_except, bind, request, emit.
  fold url. cbn -[lit app].
  destruct (w_cover_art w url) as [e | status body]; cbn -[lit app].
  - exists None. split; [reflexivity|]. split; [reflexivity|].
    right. split; [reflexivity | discriminate].
  - destruct (status =? 200)%Z eqn:Hst; cbn -[lit app].
    + apply Z.eqb_eq in Hst. subst status.
      eexists. split; [reflexivity|]. split; [reflexivity|].
      left. split; [reflexivity | eauto].
    + apply Z.eqb_neq in Hst.
      exists None. split; [reflexivity|]. split; [reflexivity|].
      right. split; [reflexivity|]. congruence.
Qed.

(** ** The commercial enrichment *)

(** X9: without a client id or without a client secret the commercial
    enrichment is switched off silently: it returns no link, no preview and
    the cover it was given, and makes no external call. *)
Theorem enrichment_off_without_credentials w ttl arts cover s :
  get_env w (lit "SPOTIFY_CLIENT_ID") [] = []
  \/ get_env w (lit "SPOTIFY_CLIENT_SECRET") [] = [] ->
  _enrich_spotify_and_cover w ttl arts cover s = (Ret (None, None, cover), s).
Proof.
  intros Hmissing.
  unfold _enrich_spotify_and_cover, _spotify_token, bind.
  destruct Hmissing as [-> | ->]; simpl.
  - reflexivity.
  - rewrite orb_true_r. reflexivity.
Qed.

Lemma enrichment_off_without_credentials_witness :
  _enrich_spotify_and_cover quiet (Some (lit "Yellow")) (lit "Coldplay") None start
  = (Ret (None, None, None), start).
Proof.
  apply (enrichment_off_without_credentials quiet (Some (lit "Yellow")) (lit "Coldplay")
           None start).
  left. reflexivity.
Defined.

(** X10: a token exchange that is answered with any status other than 200
    is a soft failure: after that one request the enrichment returns no
    link, no preview and the cover it was given, and the catalog is not
    searched. *)
Theorem refused_token_disables_enrichment w ttl arts cover s cid sec status body :
  get_env w (lit "SPOTIFY_CLIENT_ID") [] = cid ->
  get_env w (lit "SPOTIFY_CLIENT_SECRET") [] = sec ->
  cid <> [] -> sec <> [] ->
  w_spotify_token w cid sec = Resp status body ->
  status <> 200%Z ->
  _enrich_spotify_and_cover w ttl arts cover s
  = (Ret (None, None, cover), mkState (fs s) (log s ++ [EvSpotifyToken cid sec])).
Proof.
  intros Hcid Hsec Hc Hs Hw Hst.
  unfold _enrich_spotify_and_cover, _spotify_token. rewrite Hcid, Hsec.
  destruct cid as [|c cid]; [congruence|]. destruct sec as [|d sec]; [congruence|].
  cbn [truthy negb orb].
  unfold spotify_client_credentials_token. cbn [truthy negb orb].
  unfold bind, request, emit. simpl. rewrite Hw. simpl.
  apply Z.eqb_neq in Hst. rewrite Hst. reflexivity.
Qed.

Lemma refused_token_disables_enrichment_witness :
  _enrich_spotify_and_cover token_error (Some (lit "Yellow")) (lit "Coldplay") None start
  = (Ret (None, None, None),
     mkState (fs start) (log start ++ [EvSpotifyToken (lit "cid") (lit "sec")])).
Proof.
  apply (refused_token_disables_enrichment token_error (Some (lit "Yellow")) (lit "Coldplay")
           None start (lit "cid") (lit "sec") 500 None).
  - reflexivity.
  - reflexivity.
  - discriminate.
  - discriminate.
  - reflexivity.
  - discriminate.
Defined.

Lemma spotify_search_track_ret w q tok limit s items s' :
  spotify_search_track w q tok limit s = (Ret items, s') ->
  (exists status, w_spotify_search w q tok limit = Resp status (Some items))
  /\ s' = mkState (fs s) (log s ++ [EvSpotifySearch q tok limit]).
Proof.
  unfold spotify_search_track, bind, request, emit, raise_for_status. simpl.
  destruct (w_spotify_search w q tok limit) as [e | status body]; simpl; [discriminate|].
  destruct (_ && _); simpl; [discriminate|].
  destruct body; simpl; [|discriminate].
  intros H. inversion H; subst. eauto.
Qed.

(** What the enrichment returns as cover: the cover it was given, or, when
    that one is missing, the first image of the catalog's first hit. *)
Lemma enrich_cover_origin w ttl arts cover s lnk prev cov s' :
  _enrich_spotify_and_cover w ttl arts cover s = (Ret (lnk, prev, cov), s') ->
  cov = cover
  \/ (truthy_opt cover = false
      /\ exists q tok status item items,
           w_spotify_search w q tok 1 = Resp status (Some (item :: items))
           /\ cov = sp_cover (spotify_track_link_and_preview item)).
Proof.
  unfold _enrich_spotify_and_cover. intros Hrun.
  apply bind_ret_inv in Hrun. destruct Hrun as (token & s1 & _ & Hrun).
  destruct token as [tok|]; [|inversion Hrun; auto].
  destruct (truthy tok); [|inversion Hrun; auto].
  apply bind_ret_inv in Hrun. destruct Hrun as (items & s2 & Hsearch & Hrun).
  destruct items as [|item items]; [inversion Hrun; auto|].
  inversion Hrun; subst; clear Hrun.
  unfold or_opt. destruct (truthy_opt cover) eqn:Hcover; [left; reflexivity|].
  right. split; [reflexivity|].
  apply spotify_search_track_ret in Hsearch. destruct Hsearch as [[status Hw] _].
  eauto 10.
Qed.

(** X11: a cover that the archive probe has found is never replaced: when
    the enrichment is given a non-empty cover address it returns that
    address, whatever the catalog offers. *)
Theorem archive_cover_is_kept w ttl arts u s lnk prev cov s' :
  u <> [] ->
  _enrich_spotify_and_cover w ttl arts (Some u) s = (Ret (lnk, prev, cov), s') ->
  cov = Some u.
Proof.
  intros Hu Hrun. apply enrich_cover_origin in Hrun.
  destruct Hrun as [-> | [Hfalsy _]]; [reflexivity|].
  destruct u; [congruence | discriminate].
Qed.

Lemma archive_cover_is_kept_witness :
  Some (lit "https://coverartarchive.org/release/rel1/front")
  = Some (lit "https://coverartarchive.org/release/rel1/front").
Proof.
  apply (archive_cover_is_kept healthy (Some (lit "Yellow")) (lit "Coldplay")
           (lit "https://coverartarchive.org/release/rel1/front") start
           (Some (lit "https://open.spotify.com/track/1")) (Some (lit "https://p.scdn.co/1"))
           (Some (lit "https://coverartarchive.org/release/rel1/front"))
           (snd (_enrich_spotify_and_cover healthy (Some (lit "Yellow")) (lit "Coldplay")
                   (Some (lit "https://coverartarchive.org/release/rel1/front")) start))).
  - discriminate.
  - vm_compute. reflexivity.
Defined.

(** X12: the catalog is asked for the stripped text "title artists", with
    limit 1; a title that is missing is sent as the word None. *)
Theorem enrichment_query w ttl arts cover s tok s1 :
  _spotify_token w s = (Ret (Some tok), s1) ->
  tok <> [] ->
  log (snd (_enrich_spotify_and_cover w ttl arts cover s))
  = log s1 ++ [EvSpotifySearch
                 (strip (match ttl with Some t => t | None => lit "None" end
                         ++ lit " " ++ arts)) tok 1].
Proof.
  intros Htok Hne. unfold _enrich_spotify_and_cover.
  rewrite (bind_run_ret _ _ _ _ _ Htok).
  destruct tok as [|c tok]; [congruence|]. cbn [truthy].
  fold (fmt ttl).
  set (q := strip (fmt ttl ++ lit " " ++ arts)).
  unfold bind.
  destruct (spotify_search_track w q (c :: tok) 1 s1) as [[items|e] s2] eqn:Hsearch.
  - apply spotify_search_track_ret in Hsearch. destruct Hsearch as [_ ->].
    destruct items; reflexivity.
  - revert Hsearch.
    unfold spotify_search_track, bind, request, emit, raise_for_status. cbn -[lit app].
    destruct (w_spotify_search w q (c :: tok) 1) as [e0 | status body]; cbn -[lit app].
    + intros H. inversion H. reflexivity.
    + destruct (_ && _); cbn -[lit app].
      * intros H. inversion H. reflexivity.
      * destruct body; cbn -[lit app]; intros H; inversion H. reflexivity.
Qed.

Lemma enrichment_query_witness :
  log (snd (_enrich_spotify_and_cover healthy None (lit "Coldplay") None start))
  = log (snd (_spotify_token healthy start))
    ++ [EvSpotifySearch (strip (lit "None" ++ lit " " ++ lit "Coldplay")) (lit "tok") 1].
Proof.
  apply (enrichment_query healthy None (lit "Coldplay") None start (lit "tok")
           (snd (_spotify_token healthy start))).
  - vm_compute. reflexivity.
  - discriminate.
Defined.

(** ** Where a returned cover comes from *)

Lemma cover_art_from_release_some w rid s u s' :
  cover_art_from_release w rid s = (Ret (Some u), s') ->
  exists body, w_cover_art w u = Resp 200 body.
Proof.
  set (url := lit "https://coverartarchive.org/release/" ++ rid ++ lit "/front").
  unfold cover_art_from_release, try_except, bind, request, emit.
  fold url. cbn -[lit app].
  destruct (w_cover_art w url) as [e | status body] eqn:Hw; cbn -[lit app];
    [discriminate|].
  destruct (status =? 200)%Z eqn:Hst; cbn -[lit app]; [|discriminate].
  apply Z.eqb_eq in Hst. subst status.
  intros H. inversion H; subst. eauto.
Qed.

Lemma cover_of_releases_some w rels s u s' :
  cover_of_releases w rels s = (Ret (Some u), s') ->
  exists body, w_cover_art w u = Resp 200 body.
Proof.
  unfold cover_of_releases.
  destruct rels as [|rel rels]; [discriminate|].
  destruct (rel_id rel); [|discriminate].
  apply cover_art_from_release_some.
Qed.

Lemma enriched_cover_origin w rels ttl arts s0 cover s1 lnk prev u s2 :
  cover_of_releases w rels s0 = (Ret cover, s1) ->
  _enrich_spotify_and_cover w ttl arts cover s1 = (Ret (lnk, prev, Some u), s2) ->
  cover_origin w u.
Proof.
  intros Hcover Henrich. apply enrich_cover_origin in Henrich.
  destruct Henrich as [<- | [_ (q & tok & status & item & items & Hw & Hu)]].
  - left. eapply cover_of_releases_some. exact Hcover.
  - right. exists q, tok, status, item, items. split; [exact Hw | symmetry; exact Hu].
Qed.

(** X13: a cover address in a result of either entry point is never made
    up: the archive has answered 200 for it, or it is the first album image
    of the first hit of a catalog search. *)
Theorem returned_cover_has_an_origin w ua u :
  (forall query s r s',
     identify_from_text w query ua s = (Ret (Some r), s') ->
     cover_url r = Some u -> cover_origin w u)
  /\ (forall input s r s',
        identify_from_audio_input w input ua s = (Ret (Some r), s') ->
        cover_url r = Some u -> cover_origin w u).
Proof.
  split.
  - intros query s r s' Hrun Hu. unfold identify_from_text in Hrun.
    apply bind_ret_inv in Hrun. destruct Hrun as (recordings & s1 & _ & Hrun).
    destruct recordings as [|pick recs].
    + apply bind_ret_inv in Hrun. destruct Hrun as (token & s2 & _ & Hrun).
      destruct token as [tok|]; [|discriminate].
      destruct (truthy tok); [|discriminate].
      apply bind_ret_inv in Hrun. destruct Hrun as (items & s3 & Hsearch & Hrun).
      destruct items as [|item items]; [discriminate|].
      apply bind_ret_inv in Hrun. destruct Hrun as (lyr & s4 & _ & Hrun).
      inversion Hrun; subst; clear Hrun. simpl in Hu.
      apply spotify_search_track_ret in Hsearch. destruct Hsearch as [[status Hw] _].
      right. exists query, tok, status, item, items. auto.
    + apply bind_ret_inv in Hrun. destruct Hrun as (cover & sb & Hcover & Hrun).
      apply bind_ret_inv in Hrun. destruct Hrun as ([[lnk prev] cov] & sc & Henrich & Hrun).
      apply bind_ret_inv in Hrun. destruct Hrun as (lyr & sd & _ & Hrun).
      inversion Hrun; subst; clear Hrun. simpl in Hu. subst cov.
      eapply enriched_cover_origin; eauto.
  - intros input s r s' Hrun Hu. unfold identify_from_audio_input in Hrun.
    apply bind_ret_inv in Hrun. destruct Hrun as (wav & s1 & _ & Hrun).
    destruct (truthy (get_env w (lit "ACOUSTID_API_KEY") [])); [|discriminate].
    apply bind_ret_inv in Hrun. destruct Hrun as ([[fp dur]|] & s2 & _ & Hrun);
      [|discriminate].
    apply bind_ret_inv in Hrun. destruct Hrun as (matches & s3 & _ & Hrun).
    unfold identify_from_matches in Hrun.
    destruct matches as [|m0 ms]; [discriminate|].
    destruct (sorted_desc score_key (m0 :: ms)) as [|top rest]; [discriminate|].
    destruct (am_recordings top) as [|rec recs]; [discriminate|].
    apply bind_ret_inv in Hrun. destruct Hrun as (info & sa & _ & Hrun).
    apply bind_ret_inv in Hrun. destruct Hrun as (cover & sb & Hcover & Hrun).
    apply bind_ret_inv in Hrun. destruct Hrun as ([[lnk prev] cov] & sc & Henrich & Hrun).
    apply bind_ret_inv in Hrun. destruct Hrun as (lyr & sd & _ & Hrun).
    inversion Hrun; subst; clear Hrun. simpl in Hu. subst cov.
    eapply enriched_cover_origin; eauto.
Qed.

(** With the cover archive down, the cover of the result is the catalog's. *)
Lemma returned_cover_has_an_origin_witness :
  cover_origin cover_down (lit "https://i.scdn.co/1").
Proof.
  apply (proj1 (returned_cover_has_an_origin cover_down ua (lit "https://i.scdn.co/1"))
           (lit "yellow") start
           {| title := Some (lit "Yellow");
              artists := lit "Coldplay";
              cover_url := Some (lit "https://i.scdn.co/1");
              mbid := Some (lit "r1");
              spotify_link := Some (lit "https://open.spotify.com/track/1");
              spotify_preview := Some (lit "https://p.scdn.co/1");
              lyrics_excerpt := Some (excerpt_of yellow_lyrics) |}
           (snd (identify_from_text cover_down (lit "yellow") ua start))).
  - vm_compute. reflexivity.
  - reflexivity.
Defined.

(** ** The conversions and the file system *)

Lemma _run_ffmpeg_cmd_effects w args s :
  log (snd (_run_ffmpeg_cmd w args s)) = log s ++ [EvFfmpeg args]
  /\ fs s ⊆ fs (snd (_run_ffmpeg_cmd w args s))
  /\ fs (snd (_run_ffmpeg_cmd w args s)) ⊆ {[ ffmpeg_output args ]} ∪ fs s
  /\ (forall e, fst (_run_ffmpeg_cmd w args s) = Raise e ->
        (e = CalledProcessError args /\ exists left_output, w_ffmpeg w args = FfFail left_output)
        \/ (w_ffmpeg w args = FfNotRun e /\ fs (snd (_run_ffmpeg_cmd w args s)) = fs s)).
Proof.
  unfold _run_ffmpeg_cmd, bind, emit, fs_create. simpl.
  destruct (w_ffmpeg w args) as [|[|]|e0]; simpl;
    (split; [reflexivity|]; split; [set_solver|]; split; [set_solver|]);
    intros e H; inversion H; subst; eauto.
Qed.

(** X14: converting a file calls the decoder once, on the given path and
    with the mono, 44100 Hz options, writing to the path with .wav
    appended; no file is removed and no other path appears; on success the
    returned path exists; an error is CalledProcessError with the command
    line when the decoder exits with a failure, and the error of
    [subprocess.run] itself, with the disk unchanged, when the decoder
    could not be started. *)
Theorem extract_audio_from_file_effects w in_path s :
  let args := [lit "-y"; lit "-i"; in_path; lit "-ac"; lit "1"; lit "-ar";
               lit "44100"; in_path ++ lit ".wav"] in
  log (snd (extract_audio_from_file w in_path None s)) = log s ++ [EvFfmpeg args]
  /\ fs s ⊆ fs (snd (extract_audio_from_file w in_path None s))
  /\ fs (snd (extract_audio_from_file w in_path None s)) ⊆ {[ in_path ++ lit ".wav" ]} ∪ fs s
  /\ (forall wav, fst (extract_audio_from_file w in_path None s) = Ret wav ->
        w_ffmpeg w args = FfOk
        /\ wav = in_path ++ lit ".wav"
        /\ wav ∈ fs (snd (extract_audio_from_file w in_path None s)))
  /\ (forall e, fst (extract_audio_from_file w in_path None s) = Raise e ->
        (e = CalledProcessError args /\ exists left_output, w_ffmpeg w args = FfFail left_output)
        \/ (w_ffmpeg w args = FfNotRun e
            /\ fs (snd (extract_audio_from_file w in_path None s)) = fs s))
  /\ (forall left_output, w_ffmpeg w args = FfFail left_output ->
        fst (extract_audio_from_file w in_path None s) = Raise (CalledProcessError args))
  /\ (forall e, w_ffmpeg w args = FfNotRun e ->
        fst (extract_audio_from_file w in_path None s) = Raise e).
Proof.
  intros args.
  destruct (_run_ffmpeg_cmd_effects w args s) as (Hlog & Hsub & Hsup & Herr).
  assert (Heq : extract_audio_from_file w in_path None s
                = let '(r, s') := _run_ffmpeg_cmd w args s in
                  match r with
                  | Ret _ => (Ret (in_path ++ lit ".wav"), s')
                  | Raise e => (Raise e, s')
                  end) by reflexivity.
  assert (Hfail : forall left_output, w_ffmpeg w args = FfFail left_output ->
            fst (_run_ffmpeg_cmd w args s) = Raise (CalledProcessError args)).
  { intros lo Hlo. unfold _run_ffmpeg_cmd, bind, emit, fs_create. cbn -[lit app].
    fold args. rewrite Hlo. destruct lo; reflexivity. }
  assert (Hnot : forall e, w_ffmpeg w args = FfNotRun e ->
            fst (_run_ffmpeg_cmd w args s) = Raise e).
  { intros e He. unfold _run_ffmpeg_cmd, bind, emit. cbn -[lit app].
    fold args. rewrite He. reflexivity. }
  assert (Hok : forall u, fst (_run_ffmpeg_cmd w args s) = Ret u -> w_ffmpeg w args = FfOk).
  { intros u. unfold _run_ffmpeg_cmd, bind, emit, fs_create. cbn -[lit app].
    fold args. destruct (w_ffmpeg w args) as [|[|]|e0]; cbn; congruence. }
  rewrite Heq. clear Heq.
  destruct (_run_ffmpeg_cmd w args s) as [[u|e] s1] eqn:Hrun; cbn [fst snd] in *.
  - split; [exact Hlog|]. split; [exact Hsub|]. split; [exact Hsup|].
    split; [|split; [discriminate|split]].
    + intros wav H. inversion H; subst wav. split; [apply (Hok u); reflexivity|].
      split; [reflexivity|].
      apply _run_ffmpeg_cmd_ret in Hrun. rewrite Hrun.
      apply elem_of_union_l, elem_of_singleton. reflexivity.
    + intros lo Hlo. specialize (Hfail lo Hlo). discriminate.
    + intros e He. specialize (Hnot e He). discriminate.
  - split; [exact Hlog|]. split; [exact Hsub|]. split; [exact Hsup|].
    split; [discriminate|]. split; [|split].
    + intros e0 H. inversion H; subst. apply Herr. reflexivity.
    + intros lo Hlo. specialize (Hfail lo Hlo). inversion Hfail. reflexivity.
    + intros e0 He0. specialize (Hnot e0 He0). inversion Hnot. reflexivity.
Qed.

(** X15: when the download ends without an error but no file named dl.*
    is in the download directory, the conversion of a link raises
    RuntimeError; the decoder is never run, and the download directory is
    removed. *)
Theorem download_without_file_is_an_error w url s listing :
  w_ytdlp w url (path_join (w_mkdtemp w) (lit "dl.%(ext)s")) = (listing, None) ->
  List.filter (starts_with (lit "dl.")) listing = [] ->
  fst (extract_audio_from_url w url None s)
  = Raise (RuntimeError (lit "Download failed or returned no files."))
  /\ log (snd (extract_audio_from_url w url None s)) = log s ++ [EvDownload url]
  /\ (forall p, inside (w_mkdtemp w) p -> p ∉ fs (snd (extract_audio_from_url w url None s))).
Proof.
  intros Hdl Hnone.
  split; [|split; [|intros p; apply extract_audio_from_url_cleans]];
    unfold extract_audio_from_url, with_TemporaryDirectory, bind, ytdlp_download, emit;
    cbn -[lit app path_join]; rewrite Hdl; cbn -[lit app path_join];
    rewrite Hnone; reflexivity.
Qed.

Lemma download_without_file_is_an_error_witness :
  fst (extract_audio_from_url empty_download link None start)
  = Raise (RuntimeError (lit "Download failed or returned no files."))
  /\ log (snd (extract_audio_from_url empty_download link None start))
     = log start ++ [EvDownload link]
  /\ (forall p, inside (w_mkdtemp empty_download) p ->
                p ∉ fs (snd (extract_audio_from_url empty_download link None start))).
Proof.
  apply (download_without_file_is_an_error empty_download link start [lit "notes.txt"]).
  - reflexivity.
  - reflexivity.
Defined.

(** X16: when the download and the first conversion succeed but the final
    copy fails, the conversion of a link raises the decoder's error and the
    file that mkstemp created for the copy stays on disk. *)
Theorem failed_final_copy_leaves_its_file w url s listing f0 files left_output :
  w_ytdlp w url (path_join (w_mkdtemp w) (lit "dl.%(ext)s")) = (listing, None) ->
  List.filter (starts_with (lit "dl.")) listing = f0 :: files ->
  w_ffmpeg w [lit "-y"; lit "-i"; path_join (w_mkdtemp w) f0; lit "-ac"; lit "1"; lit "-ar";
              lit "44100"; path_join (w_mkdtemp w) (lit "audio.wav")] = FfOk ->
  w_ffmpeg w [lit "-y"; lit "-i"; path_join (w_mkdtemp w) (lit "audio.wav");
              w_mkstemp w (lit ".wav")] = FfFail left_output ->
  inside (w_mkdtemp w) (w_mkstemp w (lit ".wav")) = false ->
  fst (extract_audio_from_url w url None s)
  = Raise (CalledProcessError [lit "-y"; lit "-i"; path_join (w_mkdtemp w) (lit "audio.wav");
                               w_mkstemp w (lit ".wav")])
  /\ w_mkstemp w (lit ".wav") ∈ fs (snd (extract_audio_from_url w url None s)).
Proof.
  intros Hdl Hfiles Hff1 Hff2 Hout.
  split.
  - unfold extract_audio_from_url, with_TemporaryDirectory, bind, ytdlp_download, emit,
      _run_ffmpeg_cmd, mkstemp, fs_create, sr_default.
    cbn -[lit app path_join]. rewrite Hdl. cbn -[lit app path_join].
    rewrite Hfiles. cbn -[lit app path_join]. rewrite Hff1. cbn -[lit app path_join].
    rewrite Hff2. destruct left_output; reflexivity.
  - unfold extract_audio_from_url, with_TemporaryDirectory, bind, ytdlp_download, emit,
      _run_ffmpeg_cmd, mkstemp, fs_create, sr_default.
    cbn -[lit app path_join]. rewrite Hdl. cbn -[lit app path_join].
    rewrite Hfiles. cbn -[lit app path_join]. rewrite Hff1. cbn -[lit app path_join].
    rewrite Hff2.
    destruct left_output; cbn -[lit app path_join];
      (rewrite elem_of_filter; split; [rewrite Hout; simpl; tauto | set_solver]).
Qed.

Lemma failed_final_copy_leaves_its_file_witness :
  fst (extract_audio_from_url copy_fails link None start)
  = Raise (CalledProcessError [lit "-y"; lit "-i";
                               path_join (w_mkdtemp copy_fails) (lit "audio.wav");
                               w_mkstemp copy_fails (lit ".wav")])
  /\ w_mkstemp copy_fails (lit ".wav")
     ∈ fs (snd (extract_audio_from_url copy_fails link None start)).
Proof.
  apply (failed_final_copy_leaves_its_file copy_fails link start [lit "dl.webm"]
           (lit "dl.webm") [] false).
  - reflexivity.
  - reflexivity.
  - reflexivity.
  - reflexivity.
  - vm_compute. reflexivity.
Defined.

(** ** What the entry points leave alone *)

Lemma fs_grows_bind {A B} (m : M A) (k : A -> M B) :
  fs_grows m -> (forall a, fs_grows (k a)) -> fs_grows (bind m k).
Proof.
  intros Hm Hk s. unfold bind. specialize (Hm s).
  destruct (m s) as [[a|e] s1]; simpl in *; [|exact Hm].
  specialize (Hk a s1). set_solver.
Qed.

Lemma fs_grows_pure {A} (m : M A) : fs_pure m -> fs_grows m.
Proof. intros Hm s. rewrite Hm. reflexivity. Qed.

Lemma fs_grows_ffmpeg w args : fs_grows (_run_ffmpeg_cmd w args).
Proof. intros s. apply _run_ffmpeg_cmd_effects. Qed.

Lemma fs_grows_download w url outtmpl tmpdir : fs_grows (ytdlp_download w url outtmpl tmpdir).
Proof.
  intros s. unfold ytdlp_download, bind, emit. simpl.
  destruct (w_ytdlp w url outtmpl) as [listing [e|]]; simpl; set_solver.
Qed.

Lemma fs_grows_mkstemp w suffix : fs_grows (mkstemp w suffix).
Proof. intros s. unfold mkstemp, bind, fs_create. simpl. set_solver. Qed.

Lemma with_TemporaryDirectory_keeps {A} w (body : str -> M A) s p :
  (forall d, fs_grows (body d)) ->
  p ∈ fs s -> inside (w_mkdtemp w) p = false ->
  p ∈ fs (snd (with_TemporaryDirectory w body s)).
Proof.
  intros Hbody Hp Hout. unfold with_TemporaryDirectory.
  pose proof (Hbody (w_mkdtemp w) (mkState ({[ w_mkdtemp w ]} ∪ fs s) (log s))) as Hgrow.
  destruct (body (w_mkdtemp w) _) as [r s1]. simpl in *.
  rewrite elem_of_filter. split; [rewrite Hout; simpl; tauto | set_solver].
Qed.

(** The conversion of a link keeps every path outside the download
    directory. *)
Lemma extract_audio_from_url_keeps w url s p :
  p ∈ fs s -> inside (w_mkdtemp w) p = false ->
  p ∈ fs (snd (extract_audio_from_url w url None s)).
Proof.
  intros Hp Hout. unfold extract_audio_from_url.
  apply with_TemporaryDirectory_keeps; [|exact Hp|exact Hout].
  intros d.
  apply fs_grows_bind; [apply fs_grows_download|]. intros listing.
  destruct (List.filter _ listing); [apply fs_grows_pure, fs_pure_raise|].
  apply fs_grows_bind; [apply fs_grows_ffmpeg|]. intros _.
  apply fs_grows_bind; [apply fs_grows_mkstemp|]. intros final.
  apply fs_grows_bind; [apply fs_grows_ffmpeg|]. intros _.
  apply fs_grows_pure, fs_pure_ret.
Qed.

Lemma to_wav_keeps w input s p :
  p ∈ fs s ->
  is_url input = false \/ inside (w_mkdtemp w) p = false ->
  p ∈ fs (snd (to_wav w input s)).
Proof.
  intros Hp Hcase. unfold to_wav.
  destruct (is_url input) eqn:Hurl.
  - destruct Hcase as [Hc | Hout]; [discriminate|].
    apply extract_audio_from_url_keeps; assumption.
  - assert (Hgrow : fs_grows (extract_audio_from_file w input None)).
    { unfold extract_audio_from_file.
      apply fs_grows_bind; [apply fs_grows_ffmpeg|]. intros _.
      apply fs_grows_pure, fs_pure_ret. }
    eapply elem_of_weaken; [exact Hp | apply Hgrow].
Qed.

(** X17: an audio identification removes nothing but its own download
    directory: a path that exists before the call and is not inside that
    directory (for a file input: any path, the input file included) still
    exists when the call returns or raises. *)
Theorem audio_identification_keeps_other_files w input ua s p :
  p ∈ fs s ->
  is_url input = false \/ inside (w_mkdtemp w) p = false ->
  p ∈ fs (snd (identify_from_audio_input w input ua s)).
Proof.
  intros Hp Hcase. rewrite identify_from_audio_input_fs.
  apply to_wav_keeps; assumption.
Qed.

Lemma audio_identification_keeps_other_files_witness :
  clip ∈ fs (snd (identify_from_audio_input healthy clip ua start)).
Proof.
  apply (audio_identification_keeps_other_files healthy clip ua start clip).
  - apply (bool_decide_unpack _). vm_compute. exact I.
  - left. vm_compute. reflexivity.
Defined.

(** X18: a text identification never touches the file system. *)
Theorem text_identification_touches_no_file w query ua s :
  fs (snd (identify_from_text w query ua s)) = fs s.
Proof.
  assert (Hpure : fs_pure (identify_from_text w query ua)); [|apply Hpure].
  unfold identify_from_text.
  pose proof (fs_pure_mb_search w). pose proof (fs_pure_spotify_token w).
  pose proof (fs_pure_spotify_search w). pose proof (fs_pure_lyrics w).
  pose proof (fs_pure_cover_of_releases w). pose proof (fs_pure_enrich w).
  frame.
Qed.

Lemma emits_fs_create P p : emits P (fs_create p).
Proof. intros s. exists []. simpl. rewrite app_nil_r. auto. Qed.

Lemma emits_ffmpeg (P : event -> Prop) w args :
  P (EvFfmpeg args) -> emits P (_run_ffmpeg_cmd w args).
Proof.
  intros HP. unfold _run_ffmpeg_cmd.
  apply emits_bind; [apply emits_emit; exact HP|]. intros _.
  destruct (w_ffmpeg w args) as [|[|]|e].
  - apply emits_fs_create.
  - apply emits_bind; [apply emits_fs_create | intros _; apply emits_raise].
  - apply emits_bind; [apply emits_ret | intros _; apply emits_raise].
  - apply emits_raise.
Qed.

Lemma emits_download (P : event -> Prop) w url outtmpl tmpdir :
  P (EvDownload url) -> emits P (ytdlp_download w url outtmpl tmpdir).
Proof.
  intros HP s. unfold ytdlp_download, bind, emit. simpl.
  destruct (w_ytdlp w url outtmpl) as [listing [e|]]; simpl; exists [EvDownload url]; auto.
Qed.

Lemma emits_with_TemporaryDirectory {A} (P : event -> Prop) w (body : str -> M A) :
  (forall d, emits P (body d)) -> emits P (with_TemporaryDirectory w body).
Proof.
  intros Hbody s. unfold with_TemporaryDirectory.
  destruct (Hbody (w_mkdtemp w) (mkState ({[ w_mkdtemp w ]} ∪ fs s) (log s)))
    as (l & Hl & HP).
  destruct (body (w_mkdtemp w) _) as [r s1]. simpl in *. eauto.
Qed.

Lemma emits_to_wav w input : emits not_text_search (to_wav w input).
Proof.
  unfold to_wav. destruct (is_url input).
  - unfold extract_audio_from_url. apply emits_with_TemporaryDirectory. intros d.
    apply emits_bind; [apply emits_download; exact I|]. intros listing.
    destruct (List.filter _ listing); [apply emits_raise|].
    apply emits_bind; [apply emits_ffmpeg; exact I|]. intros _.
    apply emits_bind.
    { unfold mkstemp. apply emits_bind; [apply emits_fs_create|].
      intros _. apply emits_ret. }
    intros final.
    apply emits_bind; [apply emits_ffmpeg; exact I|]. intros _. apply emits_ret.
  - unfold extract_audio_from_file.
    apply emits_bind; [apply emits_ffmpeg; exact I|]. intros _. apply emits_ret.
Qed.

Lemma enrichment_is_no_text_search ev : is_enrichment ev -> not_text_search ev.
Proof. destruct ev; simpl; tauto. Qed.

(** X19: an audio identification never makes a free-text metadata search,
    on any path through it, whether it ends with a result, with absence or
    with an error. *)
Theorem audio_identification_never_searches_text w input ua s :
  exists l,
    log (snd (identify_from_audio_input w input ua s)) = log s ++ l
    /\ Forall not_text_search l.
Proof.
  assert (Hemits : emits not_text_search (identify_from_audio_input w input ua));
    [|apply Hemits].
  unfold identify_from_audio_input, identify_from_matches.
  apply emits_bind; [apply emits_to_wav|]. intros wav.
  assert (Hcover : forall rels, emits not_text_search (cover_of_releases w rels)).
  { intros rels. eapply emits_weaken;
      [apply enrichment_is_no_text_search | apply emits_cover_of_releases]. }
  assert (Henrich : forall t a c, emits not_text_search (_enrich_spotify_and_cover w t a c)).
  { intros t a c. eapply emits_weaken;
      [apply enrichment_is_no_text_search | apply emits_enrich]. }
  assert (Hlyrics : forall a t, emits not_text_search (lyrics_best_effort w a t)).
  { intros a t. eapply emits_weaken;
      [apply enrichment_is_no_text_search | apply emits_lyrics]. }
  assert (Hfp : emits not_text_search (_chromaprint_fingerprint w wav)).
  { unfold _chromaprint_fingerprint. frame. }
  assert (Hac : forall fp dur key, emits not_text_search (acoustid_lookup w fp dur key)).
  { intros fp dur key. unfold acoustid_lookup. frame. }
  assert (Hlookup : forall id, emits not_text_search (mb_lookup_recording w id ua)).
  { intros id. unfold mb_lookup_recording. frame. }
  frame.
Qed.

(** ** The replies of the bot *)

Example caption_of_yellow :
  caption_of yellow_result
  = lit ":musical_note: *Yellow* " ++ [0x2014%N] ++ lit " Coldplay" ++ [10%N]
    ++ lit "Spotify: https://open.spotify.com/track/1" ++ [10%N]
    ++ lit "Preview (30s): https://p.scdn.co/1" ++ [10%N; 10%N]
    ++ lit "_lyrics (excerpt):_" ++ [10%N] ++ excerpt_of yellow_lyrics.
Proof. vm_compute. reflexivity. Qed.

(** X20: a caption holds at most the first 500 characters of the lyrics
    excerpt, so its length is bounded by 568 plus the lengths of the title
    shown, the artist string, the link and the preview address. *)
Theorem caption_length_bound (res : track_result) :
  length (caption_of res)
  <= 568 + length (or_str (title res) (lit "Unknown")) + length (artists res)
     + length (or_str (spotify_link res) []) + length (or_str (spotify_preview res) []).
Proof.
  unfold caption_of.
  set (head := lit ":musical_note: *" ++ or_str (title res) (lit "Unknown") ++ lit "* "
               ++ [0x2014%N] ++ lit " " ++ artists res).
  assert (Hhead : length (strip head)
                  <= 20 + length (or_str (title res) (lit "Unknown")) + length (artists res)).
  { etransitivity; [apply length_strip|]. unfold head.
    rewrite !length_app. change (length (lit ":musical_note: *")) with 16.
    change (length (lit "* ")) with 2. change (length (lit " ")) with 1. simpl. lia. }
  assert (Hlyr : length (take 500 (fmt (lyrics_excerpt res))) <= 500).
  { rewrite length_take. lia. }
  destruct (spotify_link res) as [[|c sp]|];
    destruct (spotify_preview res) as [[|d prev]|];
    destruct (lyrics_excerpt res) as [[|e lyr]|];
    cbn [truthy_opt truthy or_str fmt] in *;
    rewrite ?length_app;
    change (length (lit "Spotify: ")) with 9;
    change (length (lit "Preview (30s): ")) with 15;
    change (length (lit "_lyrics (excerpt):_")) with 19;
    cbn [length] in *; lia.
Qed.

(** X21: a result is answered with its caption and nothing else: with a
    cover that can be sent, as one photo with the caption; without a cover,
    or when the photo send raises, as one text message with the caption.  A
    failing photo send is not an error; the call raises only when the text
    message cannot be sent, and then nothing was delivered.  The pipeline's
    state is not touched. *)
Theorem result_is_answered_with_its_caption env res b :
  inner (snd (_reply_with_result env res b)) = inner b
  /\ match fst (_reply_with_result env res b) with
     | Ret _ =>
         (exists cover,
            cover_url res = Some cover /\ cover <> []
            /\ tg_send env (ReplyPhoto cover (caption_of res)) = None
            /\ delivered (snd (_reply_with_result env res b))
               = delivered b ++ [ReplyPhoto cover (caption_of res)])
         \/ ((truthy_opt (cover_url res) = false
              \/ exists cover e,
                   cover_url res = Some cover
                   /\ tg_send env (ReplyPhoto cover (caption_of res)) = Some e)
             /\ delivered (snd (_reply_with_result env res b))
                = delivered b ++ [ReplyMarkdown (caption_of res)])
     | Raise e =>
         tg_send env (ReplyMarkdown (caption_of res)) = Some e
         /\ delivered (snd (_reply_with_result env res b)) = delivered b
     end.
Proof.
  unfold _reply_with_result.
  destruct (cover_url res) as [[|c cover]|] eqn:Hcover; cbn [truthy].
  - unfold send. destruct (tg_send env (ReplyMarkdown _)) eqn:Hmd; simpl.
    + auto.
    + split; [reflexivity|]. right. split; [left; reflexivity | reflexivity].
  - unfold bbind, btry, send.
    destruct (tg_send env (ReplyPhoto (c :: cover) _)) as [e|] eqn:Hphoto; simpl.
    + destruct (tg_send env (ReplyMarkdown _)) eqn:Hmd; simpl; [auto|].
      split; [reflexivity|]. right. split; [|reflexivity]. right. eauto.
    + split; [reflexivity|]. left. exists (c :: cover).
      split; [reflexivity|]. split; [discriminate|]. split; [exact Hphoto | reflexivity].
  - unfold send. destruct (tg_send env (ReplyMarkdown _)) eqn:Hmd; simpl.
    + auto.
    + split; [reflexivity|]. right. split; [left; reflexivity | reflexivity].
Qed.

(** Reasoning about one send. *)
Lemma send_ok env r b :
  tg_send env r = None -> send env r b = (Ret tt, mkBot (inner b) (delivered b ++ [r])).
Proof. intros H. unfold send. rewrite H. reflexivity. Qed.

(** With a client whose sends all succeed, a result is answered by exactly
    one message and without an error. *)
Lemma _reply_with_result_ok env res b :
  (forall r, tg_send env r = None) ->
  exists r,
    _reply_with_result env res b = (Ret tt, mkBot (inner b) (delivered b ++ [r]))
    /\ (r = ReplyMarkdown (caption_of res)
        \/ exists cover, cover_url res = Some cover /\ r = ReplyPhoto cover (caption_of res)).
Proof.
  intros Hok. unfold _reply_with_result.
  destruct (cover_url res) as [[|c cover]|]; cbn [truthy].
  - exists (ReplyMarkdown (caption_of res)). rewrite send_ok by apply Hok.
    split; [reflexivity | left; reflexivity].
  - exists (ReplyPhoto (c :: cover) (caption_of res)).
    unfold bbind, btry. rewrite send_ok by apply Hok. simpl.
    split; [reflexivity | right; eauto].
  - exists (ReplyMarkdown (caption_of res)). rewrite send_ok by apply Hok.
    split; [reflexivity | left; reflexivity].
Qed.

(** X22: in a group or supergroup a text that does not mention the bot is
    ignored: no reply, no external call, no change on disk; this is the case
    for every text when no bot user name is configured. *)
Theorem unmentioned_group_text_is_ignored w env msg b :
  msg_chat_type msg = lit "group" \/ msg_chat_type msg = lit "supergroup" ->
  BOT_USERNAME w env = []
  \/ contains (lit "@" ++ BOT_USERNAME w env)
              (py_lower env (strip (or_str (msg_text msg) []))) = false ->
  handle_text_or_link w env msg b = (Ret tt, b).
Proof.
  intros Hchat Hno. unfold handle_text_or_link, btry.
  assert (Hm : _mentioned_me w env (strip (or_str (msg_text msg) [])) = false).
  { unfold _mentioned_me. destruct Hno as [-> | Hno]; [reflexivity|].
    destruct (truthy (BOT_USERNAME w env)); [exact Hno | reflexivity]. }
  rewrite Hm.
  destruct Hchat as [-> | ->]; reflexivity.
Qed.

Lemma unmentioned_group_text_is_ignored_witness :
  handle_text_or_link healthy tg_ok (group_text "coldplay yellow") idle = (Ret tt, idle).
Proof.
  apply (unmentioned_group_text_is_ignored healthy tg_ok (group_text "coldplay yellow") idle).
  - left. reflexivity.
  - left. vm_compute. reflexivity.
Defined.

Lemma lift_run {A} (m : M A) b :
  lift m b = (fst (m (inner b)), mkBot (snd (m (inner b))) (delivered b)).
Proof. unfold lift. destruct (m (inner b)). reflexivity. Qed.

(** The error reply: with an attribute [name] on the class, one text is
    sent; without one, building the text raises AttributeError and nothing
    is sent. *)
Lemma reply_error_run env e b :
  reply_error env e b
  = match class_name_attr env e with
    | Some name =>
        send env (ReplyText (lit "Error: " ++ name ++ lit ": " ++ take 300 (py_str env e))) b
    | None =>
        (Raise (AttributeError (lit "type object '" ++ exc_type_name e
                                ++ lit "' has no attribute 'name'")), b)
    end.
Proof.
  unfold reply_error, human_exc, describe. cbn [type_name_attr type_name exc_str].
  destruct (class_name_attr env e); reflexivity.
Qed.

(** X23: with a client whose sends succeed, a text that is handled (in a
    private chat, or mentioning the bot) is passed to the audio pipeline
    when it is a link and to the text pipeline otherwise.  A result is
    answered with its caption and absence with the no-match text, as the
    only reply.  When the pipeline raises, the handler builds the error
    text: for a class with an attribute [name] it is the only reply; for a
    class without one, as every class the pipeline raises itself, nothing
    is sent and AttributeError is raised out of the handler. *)
Theorem handled_text_reply w env msg b :
  (forall r, tg_send env r = None) ->
  (msg_chat_type msg <> lit "group" /\ msg_chat_type msg <> lit "supergroup")
  \/ _mentioned_me w env (strip (or_str (msg_text msg) [])) = true ->
  let text := strip (or_str (msg_text msg) []) in
  let run := (if is_url text
              then identify_from_audio_input w text (MB_UA w)
              else identify_from_text w text (MB_UA w)) (inner b) in
  match fst run with
  | Ret (Some res) =>
      exists r,
        handle_text_or_link w env msg b = (Ret tt, mkBot (snd run) (delivered b ++ [r]))
        /\ (r = ReplyMarkdown (caption_of res)
            \/ exists cover, cover_url res = Some cover /\ r = ReplyPhoto cover (caption_of res))
  | Ret None =>
      handle_text_or_link w env msg b
      = (Ret tt, mkBot (snd run) (delivered b ++ [ReplyText no_match_text]))
  | Raise e =>
      match e with
      | LibraryError _ _ | AttributeError _ =>
          match class_name_attr env e with
          | Some name =>
              handle_text_or_link w env msg b
              = (Ret tt,
                 mkBot (snd run)
                       (delivered b ++ [ReplyText (lit "Error: " ++ name ++ lit ": "
                                                   ++ take 300 (py_str env e))]))
          | None =>
              handle_text_or_link w env msg b
              = (Raise (AttributeError (lit "type object '" ++ exc_type_name e
                                        ++ lit "' has no attribute 'name'")),
                 mkBot (snd run) (delivered b))
          end
      | _ =>
          handle_text_or_link w env msg b
          = (Raise (AttributeError (lit "type object '" ++ exc_type_name e
                                    ++ lit "' has no attribute 'name'")),
             mkBot (snd run) (delivered b))
      end
  end.
Proof.
  intros Hok Hreact text run. unfold handle_text_or_link.
  fold text.
  assert (Hskip : (bool_decide (msg_chat_type msg = lit "group")
                   || bool_decide (msg_chat_type msg = lit "supergroup"))
                  && negb (_mentioned_me w env text) = false).
  { destruct Hreact as [[Hg Hs] | Hm]; [|fold text in Hm; rewrite Hm; apply andb_false_r].
    rewrite !bool_decide_eq_false_2 by assumption. reflexivity. }
  rewrite Hskip.
  set (pipeline := if is_url text
                   then identify_from_audio_input w text (MB_UA w)
                   else identify_from_text w text (MB_UA w)).
  assert (Hlift : (if is_url text
                   then lift (identify_from_audio_input w text (MB_UA w))
                   else lift (identify_from_text w text (MB_UA w))) = lift pipeline).
  { unfold pipeline. destruct (is_url text); reflexivity. }
  rewrite Hlift. unfold btry, bbind. rewrite lift_run.
  change run with (pipeline (inner b)).
  destruct (pipeline (inner b)) as [[[res|]|e] s1]; cbn [fst snd].
  - destruct (_reply_with_result_ok env res (mkBot s1 (delivered b)) Hok) as (r & -> & Hr).
    exists r. split; [reflexivity | exact Hr].
  - rewrite send_ok by apply Hok. reflexivity.
  - rewrite reply_error_run.
    destruct e; cbn [class_name_attr]; try reflexivity;
      destruct (py_name_attr env _); try reflexivity;
      rewrite send_ok by apply Hok; reflexivity.
Qed.

(** The healthy search is answered with a photo; with the commercial search
    down the pipeline raises HTTPError, and the handler raises
    AttributeError without a reply. *)
Lemma handled_text_reply_witness :
  (exists r,
     handle_text_or_link healthy tg_ok (private_text "yellow") idle
     = (Ret tt,
        mkBot (snd (identify_from_text healthy (lit "yellow") (MB_UA healthy) (inner idle)))
              (delivered idle ++ [r]))
     /\ (r = ReplyMarkdown (caption_of yellow_result)
         \/ exists cover,
              cover_url yellow_result = Some cover
              /\ r = ReplyPhoto cover (caption_of yellow_result)))
  /\ handle_text_or_link spotify_down tg_ok (private_text "yellow") idle
     = (Raise (AttributeError (lit "type object 'HTTPError' has no attribute 'name'")),
        mkBot (snd (identify_from_text spotify_down (lit "yellow") (MB_UA spotify_down)
                      (inner idle)))
              (delivered idle)).
Proof.
  split.
  - pose proof (handled_text_reply healthy tg_ok (private_text "yellow") idle) as H.
    assert (Hsend : forall r, tg_send tg_ok r = None) by reflexivity.
    assert (Hchat : (msg_chat_type (private_text "yellow") <> lit "group"
                     /\ msg_chat_type (private_text "yellow") <> lit "supergroup")
                    \/ _mentioned_me healthy tg_ok
                         (strip (or_str (msg_text (private_text "yellow")) [])) = true)
      by (left; split; discriminate).
    specialize (H Hsend Hchat). vm_compute in H. vm_compute. exact H.
  - pose proof (handled_text_reply spotify_down tg_ok (private_text "yellow") idle) as H.
    assert (Hsend : forall r, tg_send tg_ok r = None) by reflexivity.
    assert (Hchat : (msg_chat_type (private_text "yellow") <> lit "group"
                     /\ msg_chat_type (private_text "yellow") <> lit "supergroup")
                    \/ _mentioned_me spotify_down tg_ok
                         (strip (or_str (msg_text (private_text "yellow")) [])) = true)
      by (left; split; discriminate).
    specialize (H Hsend Hchat). vm_compute in H. vm_compute. exact H.
Defined.

Example yellow_is_answered_with_a_photo :
  handle_text_or_link healthy tg_ok (private_text "  yellow ") idle
  = (Ret tt,
     mkBot (snd (identify_from_text healthy (lit "yellow") (MB_UA healthy) (inner idle)))
           [ReplyPhoto (lit "https://coverartarchive.org/release/rel1/front")
                       (caption_of yellow_result)])
  /\ delivered (snd (handle_text_or_link healthy tg_no_photo (private_text "yellow") idle))
     = [ReplyMarkdown (caption_of yellow_result)].
Proof. split; vm_compute; reflexivity. Qed.

Lemma removed_is_gone (p : str) (X : gset str) : p ∉ X ∖ {[ p ]}.
Proof.
  intros Hin. apply elem_of_difference in Hin. destruct Hin as [_ Hn].
  apply Hn, elem_of_singleton. reflexivity.
Qed.

(** X24: an upload is stored in a temporary file and identified from it.
    With a client whose file access and sends succeed: when the
    identification returns, its result or the not-identified text is the
    only reply and the temporary file is removed afterwards; when it
    raises, the temporary file stays on disk, and the handler builds the
    error text: for a class with an attribute [name] it is the only reply;
    for a class without one, as every class the pipeline raises itself,
    nothing is sent and AttributeError is raised out of the handler. *)
Theorem upload_is_removed_unless_identification_raises w env msg b a :
  first_attachment msg = Some a ->
  tg_get_file env a = None ->
  tg_download env a (tg_tmp_name env) = None ->
  (forall r, tg_send env r = None) ->
  is_url (tg_tmp_name env) = false \/ inside (w_mkdtemp w) (tg_tmp_name env) = false ->
  let done := handle_media w env msg b in
  match fst (identify_from_audio_input w (tg_tmp_name env) (MB_UA w)
               (mkState ({[ tg_tmp_name env ]} ∪ fs (inner b)) (log (inner b)))) with
  | Ret res =>
      fst done = Ret tt
      /\ (tg_tmp_name env ∉ fs (inner (snd done)))
      /\ exists r,
           delivered (snd done) = delivered b ++ [r]
           /\ match res with
              | Some found =>
                  r = ReplyMarkdown (caption_of found)
                  \/ exists cover,
                       cover_url found = Some cover /\ r = ReplyPhoto cover (caption_of found)
              | None => r = ReplyText not_identified_text
              end
  | Raise e =>
      (tg_tmp_name env ∈ fs (inner (snd done)))
      /\ match e with
         | LibraryError _ _ | AttributeError _ =>
             match class_name_attr env e with
             | Some name =>
                 fst done = Ret tt
                 /\ delivered (snd done)
                    = delivered b ++ [ReplyText (lit "Error: " ++ name ++ lit ": "
                                                 ++ take 300 (py_str env e))]
             | None =>
                 fst done = Raise (AttributeError (lit "type object '" ++ exc_type_name e
                                                   ++ lit "' has no attribute 'name'"))
                 /\ delivered (snd done) = delivered b
             end
         | _ =>
             fst done = Raise (AttributeError (lit "type object '" ++ exc_type_name e
                                               ++ lit "' has no attribute 'name'"))
             /\ delivered (snd done) = delivered b
         end
  end.
Proof.
  intros Hatt Hfile Hdl Hok Hpath done. subst done.
  unfold handle_media. rewrite Hatt, Hfile.
  unfold download_upload. rewrite Hdl.
  set (tmp := tg_tmp_name env) in *.
  set (s0 := mkState ({[ tmp ]} ∪ fs (inner b)) (log (inner b))).
  assert (Hkept : tmp ∈ fs (snd (identify_from_audio_input w tmp (MB_UA w) s0))).
  { rewrite identify_from_audio_input_fs. apply to_wav_keeps; [|exact Hpath].
    unfold s0. simpl. apply elem_of_union_l, elem_of_singleton. reflexivity. }
  unfold btry, bbind. rewrite lift_run. cbn [fst snd fs_create inner delivered bret].
  fold s0. rewrite lift_run. cbn [fst snd inner delivered].
  destruct (identify_from_audio_input w tmp (MB_UA w) s0) as [[res|e] s1]; cbn [fst snd] in *.
  - assert (Hremove : forall d,
               btry (lift (os_remove tmp)) (fun _ => bret tt)
                    (mkBot s1 d)
               = (Ret tt, mkBot (mkState (fs s1 ∖ {[ tmp ]}) (log s1)) d)).
    { intros d. unfold btry. rewrite lift_run. unfold os_remove. cbn [inner delivered].
      rewrite bool_decide_eq_true_2 by exact Hkept. reflexivity. }
    destruct res as [found|].
    + destruct (_reply_with_result_ok env found (mkBot s1 (delivered b)) Hok) as (r & -> & Hr).
      unfold btry in Hremove. rewrite Hremove. cbn [fst snd inner delivered fs].
      split; [reflexivity|]. split; [apply removed_is_gone|].
      exists r. split; [reflexivity | exact Hr].
    + rewrite send_ok by apply Hok. cbn [inner delivered].
      unfold btry in Hremove. rewrite Hremove. cbn [fst snd inner delivered fs].
      split; [reflexivity|]. split; [apply removed_is_gone|].
      eexists. split; reflexivity.
  - rewrite reply_error_run. split.
    + destruct (class_name_attr env e); [|exact Hkept].
      rewrite send_ok by apply Hok. exact Hkept.
    + destruct e; cbn [class_name_attr]; try (split; reflexivity);
        destruct (py_name_attr env _); try (split; reflexivity);
        rewrite send_ok by apply Hok; split; reflexivity.
Qed.

(** A voice note is identified and its temporary file removed; without a
    decoder the conversion raises FileNotFoundError, the temporary file
    stays, and the handler raises AttributeError without a reply. *)
Lemma upload_is_removed_unless_identification_raises_witness :
  (fst (handle_media healthy tg_ok voice_note idle) = Ret tt
   /\ (tg_tmp_name tg_ok ∉ fs (inner (snd (handle_media healthy tg_ok voice_note idle))))
   /\ exists r,
        delivered (snd (handle_media healthy tg_ok voice_note idle)) = delivered idle ++ [r]
        /\ r = ReplyText not_identified_text)
  /\ ((tg_tmp_name tg_ok ∈ fs (inner (snd (handle_media no_decoder tg_ok voice_note idle))))
      /\ fst (handle_media no_decoder tg_ok voice_note idle)
         = Raise (AttributeError
                    (lit "type object 'FileNotFoundError' has no attribute 'name'"))
      /\ delivered (snd (handle_media no_decoder tg_ok voice_note idle)) = delivered idle).
Proof.
  assert (Hpath : is_url (tg_tmp_name tg_ok) = false) by (vm_compute; reflexivity).
  split.
  - pose proof (upload_is_removed_unless_identification_raises healthy tg_ok voice_note idle
                  {| att_file_id := lit "f1" |} eq_refl eq_refl eq_refl (fun _ => eq_refl)
                  (or_introl Hpath)) as H.
    cbv zeta in H.
    replace (fst (identify_from_audio_input healthy (tg_tmp_name tg_ok) (MB_UA healthy)
                    (mkState ({[ tg_tmp_name tg_ok ]} ∪ fs (inner idle)) (log (inner idle)))))
      with (@Ret (option track_result) None) in H by (vm_compute; reflexivity).
    exact H.
  - pose proof (upload_is_removed_unless_identification_raises no_decoder tg_ok voice_note idle
                  {| att_file_id := lit "f1" |} eq_refl eq_refl eq_refl (fun _ => eq_refl)
                  (or_introl Hpath)) as H.
    cbv zeta in H.
    replace (fst (identify_from_audio_input no_decoder (tg_tmp_name tg_ok) (MB_UA no_decoder)
                    (mkState ({[ tg_tmp_name tg_ok ]} ∪ fs (inner idle)) (log (inner idle)))))
      with (@Raise (option track_result) (LibraryError (lit "FileNotFoundError") [])) in H
      by (vm_compute; reflexivity).
    exact H.
Defined.

Example voice_note_runs :
  elements (fs (inner (snd (handle_media healthy tg_ok voice_note idle))))
  = [lit "/tmp/tmpup1.wav"]
  /\ elements (fs (inner (snd (handle_media no_decoder tg_ok voice_note idle))))
     = [lit "/tmp/tmpup1"]
  /\ delivered (snd (handle_media no_decoder tg_ok voice_note idle)) = []
  /\ delivered (snd (handle_media healthy tg_ok voice_note idle))
     = [ReplyText not_identified_text].
Proof. repeat split; vm_compute; reflexivity. Qed.

(** X25: the error reply of both handlers.  For a class with an attribute
    [name] the reply is the text Error, the attribute, a colon and at most
    300 characters of the message, at most 309 characters besides the
    attribute; the error of a failing send leaves the handler.  For a class
    the pipeline raises itself the text cannot be built: AttributeError
    naming the class is raised and nothing is sent. *)
Theorem error_reply_is_short env e b :
  (forall name,
     class_name_attr env e = Some name ->
     exists text,
       text = lit "Error: " ++ name ++ lit ": " ++ take 300 (py_str env e)
       /\ length text <= 309 + length name
       /\ reply_error env e b
          = match tg_send env (ReplyText text) with
            | Some e' => (Raise e', b)
            | None => (Ret tt, mkBot (inner b) (delivered b ++ [ReplyText text]))
            end)
  /\ ((forall kind msg, e <> LibraryError kind msg) ->
      (forall msg, e <> AttributeError msg) ->
      reply_error env e b
      = (Raise (AttributeError (lit "type object '" ++ exc_type_name e
                                ++ lit "' has no attribute 'name'")), b)).
Proof.
  split.
  - intros name Hname. eexists. split; [reflexivity|]. split.
    + rewrite !length_app, length_take.
      change (length (lit "Error: ")) with 7. change (length (lit ": ")) with 2. lia.
    + rewrite reply_error_run, Hname. reflexivity.
  - intros Hlib Hattr. rewrite reply_error_run.
    destruct e; try reflexivity; exfalso; [eapply Hattr | eapply Hlib]; reflexivity.
Qed.

(** A failed import under an interpreter whose ImportError has the member
    [name], and the pipeline's own RuntimeError. *)
Lemma error_reply_is_short_witness :
  (exists text,
     text = lit "Error: <member 'name' of 'ImportError' objects>: No module named 'yt_dlp'"
     /\ length text <= 309 + 40
     /\ reply_error tg_import_error (LibraryError (lit "ModuleNotFoundError") []) idle
        = (Ret tt, mkBot (inner idle) (delivered idle ++ [ReplyText text])))
  /\ reply_error tg_ok (RuntimeError (lit "Download failed or returned no files.")) idle
     = (Raise (AttributeError (lit "type object 'RuntimeError' has no attribute 'name'")), idle).
Proof.
  split.
  - destruct (proj1 (error_reply_is_short tg_import_error
                       (LibraryError (lit "ModuleNotFoundError") []) idle)
                (lit "<member 'name' of 'ImportError' objects>") eq_refl)
      as (text & Htext & Hlen & Hrun).
    exists text. split; [exact Htext|]. split; [exact Hlen | exact Hrun].
  - apply (proj2 (error_reply_is_short tg_ok
                    (RuntimeError (lit "Download failed or returned no files.")) idle)).
    + discriminate.
    + discriminate.
Defined.


(** ** The artist the lyrics are asked for *)

Lemma split_first_app (sep : N) (pre post : str) :
  ~ In sep pre -> split_first sep (pre ++ sep :: post) = pre.
Proof.
  induction pre as [|c pre IH]; simpl; intros Hno.
  - rewrite N.eqb_refl. reflexivity.
  - destruct (c =? sep)%N eqn:Hc.
    + apply N.eqb_eq in Hc. subst. tauto.
    + rewrite IH by tauto. reflexivity.
Qed.

(** X26: of an artist string with a comma, the lyrics are asked for the
    text before the first comma only, stripped; a first artist whose own
    name contains a comma is cut there. *)
Theorem first_artist_stops_at_first_comma (pre post : str) :
  ~ In 0x2C%N pre ->
  first_artist (pre ++ 0x2C%N :: post) = strip pre.
Proof.
  intros Hno. unfold first_artist.
  assert (Htruthy : truthy (pre ++ 0x2C%N :: post) = true) by (destruct pre; reflexivity).
  rewrite Htruthy, split_first_app by exact Hno. reflexivity.
Qed.

Lemma first_artist_stops_at_first_comma_witness :
  first_artist (lit "Tyler" ++ 0x2C%N :: lit " The Creator, Kali Uchis") = strip (lit "Tyler").
Proof.
  apply (first_artist_stops_at_first_comma (lit "Tyler") (lit " The Creator, Kali Uchis")).
  vm_compute. intros H. repeat (destruct H as [H | H]; [discriminate|]). exact H.
Defined.

(** ** A release without an identifier *)

(** X27: when the first release of the picked recording has no id, the text
    identification raises KeyError right after the metadata search: nothing
    else is called and no result is returned, whatever the other releases
    hold. *)
Theorem release_without_id_raises w query ua s pick recs s1 rel rels :
  mb_search_recordings w query ua 5 s = (Ret (pick :: recs), s1) ->
  rec_releases pick = rel :: rels ->
  rel_id rel = None ->
  identify_from_text w query ua s = (Raise (KeyError (lit "id")), s1).
Proof.
  intros Hmb Hrels Hid. unfold identify_from_text.
  rewrite (bind_run_ret _ _ _ _ _ Hmb).
  unfold bind, cover_of_releases. rewrite Hrels, Hid. reflexivity.
Qed.

Lemma release_without_id_raises_witness :
  identify_from_text broken_release (lit "yellow") ua start
  = (Raise (KeyError (lit "id")),
     snd (mb_search_recordings broken_release (lit "yellow") ua 5 start)).
Proof.
  apply (release_without_id_raises broken_release (lit "yellow") ua start release_without_id []
           (snd (mb_search_recordings broken_release (lit "yellow") ua 5 start))
           {| rel_id := None |} [ {| rel_id := Some (lit "rel1") |} ]).
  - vm_compute. reflexivity.
  - reflexivity.
  - reflexivity.
Defined.

(** ** What the download directory holds *)

Lemma starts_with_app (p x : str) : starts_with p (p ++ x) = true.
Proof.
  induction p as [|c p IH]; simpl; [reflexivity|].
  rewrite N.eqb_refl. exact IH.
Qed.

(** A relative name joined to a directory lies inside that directory. *)
Lemma path_join_inside (d f : str) :
  d <> [] -> starts_with (lit "/") f = false -> inside d (path_join d f) = true.
Proof.
  intros Hd Hf. unfold inside, path_join. rewrite Hf.
  change (starts_with (lit "/") []) with false. cbn iota.
  destruct d as [|c d]; [congruence|]. cbn [truthy negb orb].
  apply orb_true_iff. right.
  destruct (ends_with (lit "/") (c :: d)).
  - rewrite app_nil_r. apply starts_with_app.
  - rewrite app_nil_r.
    replace ((c :: d) ++ lit "/" ++ f) with (((c :: d) ++ lit "/") ++ f)
      by (rewrite <- app_assoc; reflexivity).
    apply starts_with_app.
Qed.

(** X28: whatever the downloader and the decoder wrote under a relative
    name into the download directory, the downloaded media and the
    intermediate audio.wav among it, is gone when the conversion of a link
    returns or raises. *)
Theorem download_directory_files_are_removed w url s f :
  w_mkdtemp w <> [] ->
  starts_with (lit "/") f = false ->
  path_join (w_mkdtemp w) f ∉ fs (snd (extract_audio_from_url w url None s)).
Proof.
  intros Hd Hf. apply extract_audio_from_url_cleans.
  rewrite path_join_inside by assumption. exact I.
Qed.

Lemma download_directory_files_are_removed_witness :
  path_join (w_mkdtemp healthy) (lit "audio.wav")
  ∉ fs (snd (extract_audio_from_url healthy link None start)).
Proof.
  apply (download_directory_files_are_removed healthy link start (lit "audio.wav")).
  - discriminate.
  - reflexivity.
Defined.
